(** * sync.py: mirroring a local tree onto Pterodactyl servers

    A shallow embedding of [sync.py] and the properties of its scanner,
    folder planner, folder materializer, upload pipeline and per-server
    loop.

    Python strings are lists of characters, so that the list library
    applies to them; a literal is written [lit "..."].  The
    asynchronous functions run on one event loop without any concurrent task,
    so they are modelled in a state-and-exception monad over the state of the
    panel and the trace of requests and printed lines. *)

From Stdlib Require Import List Ascii ZArith Lia Bool Arith.
From Stdlib Require String.
Import String.StringSyntax.
Delimit Scope string_scope with string.
From Stdlib Require Import Permutation Sorted.
Import ListNotations.

Set Implicit Arguments.

Open Scope list_scope.

(** ** Strings *)

Definition str := list ascii.

(** A literal: [lit "a/b"]. *)
Definition lit (s : String.string) : str := String.list_ascii_of_string s.
Arguments lit s%_string.

Definition slash : ascii := "/"%char.
Definition backslash : ascii := "\"%char.
Definition dot : ascii := "."%char.

Definition str_eqb (a b : str) : bool :=
  if list_eq_dec ascii_dec a b then true else false.

(** [s.lstrip(c)], [s.rstrip(c)] and [s.strip(c)] for a one-character set. *)
Fixpoint lstrip (c : ascii) (s : str) : str :=
  match s with
  | [] => []
  | x :: r => if Ascii.eqb x c then lstrip c r else s
  end.

Definition rstrip (c : ascii) (s : str) : str := rev (lstrip c (rev s)).

Definition strip (c : ascii) (s : str) : str := rstrip c (lstrip c s).

(** [s.split(c)]: never empty, [''.split('/') == ['']]. *)
Fixpoint split (c : ascii) (s : str) : list str :=
  match s with
  | [] => [[]]
  | x :: r =>
      if Ascii.eqb x c then [] :: split c r
      else match split c r with
           | h :: t => (x :: h) :: t
           | [] => [[x]]
           end
  end.

(** [sep.join(parts)]. *)
Fixpoint join (sep : str) (parts : list str) : str :=
  match parts with
  | [] => []
  | p :: r =>
      match r with
      | [] => p
      | _ :: _ => p ++ sep ++ join sep r
      end
  end.

(** [s.count(c)] for a one-character needle. *)
Definition count (c : ascii) (s : str) : nat := count_occ ascii_dec s c.

(** [s.rfind(c) + 1]: the position after the last [c], 0 when there is none. *)
Fixpoint rfind_succ (c : ascii) (s : str) : nat :=
  match s with
  | [] => 0
  | x :: r =>
      match rfind_succ c r with
      | 0 => if Ascii.eqb x c then 1 else 0
      | S k => S (S k)
      end
  end.

(** [s.startswith(p)]. *)
Fixpoint startswith (p s : str) : bool :=
  match p, s with
  | [], _ => true
  | _ :: _, [] => false
  | a :: p', b :: s' => Ascii.eqb a b && startswith p' s'
  end.

(** [needle in s] on strings. *)
Fixpoint contains (needle s : str) : bool :=
  startswith needle s ||
  match s with
  | [] => false
  | _ :: r => contains needle r
  end.

(** [s.replace(a, b)] for one-character [a] and [b]. *)
Definition replace (a b : ascii) (s : str) : str :=
  map (fun x => if Ascii.eqb x a then b else x) s.

(** Python's [x or y] on strings. *)
Definition str_or (x y : str) : str :=
  match x with [] => y | _ :: _ => x end.

(** ** Paths ([posixpath]) *)

Definition all_sep (sep : ascii) (s : str) : bool :=
  forallb (fun x => Ascii.eqb x sep) s.

(** [os.path.dirname]: the head up to the last separator, its trailing
    separators stripped unless it holds nothing else. *)
Definition dirname (p : str) : str :=
  let i := rfind_succ slash p in
  let head := firstn i p in
  match head with
  | [] => head
  | _ :: _ => if all_sep slash head then head else rstrip slash head
  end.

(** [os.path.basename]: what follows the last separator. *)
Definition basename (p : str) : str := skipn (rfind_succ slash p) p.

(** ** The folder planner (the first half of a server's turn in [main]) *)

(** [directory = "/" + os.path.dirname(remote_path).lstrip("/")], as [main]
    and [upload_file] both compute it. *)
Definition remote_directory (remote_path : str) : str :=
  slash :: lstrip slash (dirname remote_path).

(** The [dirs_to_make.add] calls one file causes, in order. *)
Definition file_dirs (remote_path : str) : list str :=
  let directory := remote_directory remote_path in
  if negb (str_eqb directory []) && negb (str_eqb directory [slash]) then
    let parts := split slash (strip slash directory) in
    map (fun i => slash :: join [slash] (firstn i parts))
        (seq 1 (length parts))
  else [].

(** All the [add] calls of the loop over [files], in order. *)
Definition dirs_added (files : list (str * str)) : list str :=
  flat_map (fun f => file_dirs (snd f)) files.

(** [sorted(xs, key=key)]: a stable sort, by insertion. *)
Fixpoint insert_by (key : str -> nat) (x : str) (l : list str) : list str :=
  match l with
  | [] => [x]
  | y :: r => if key x <=? key y then x :: l else y :: insert_by key x r
  end.

Definition sorted (key : str -> nat) (l : list str) : list str :=
  fold_right (insert_by key) [] l.

Section Planner.

(** A Python [set] iterates in an order that the sequence of insertions and
    the hashes decide; [set_iter] maps the sequence of [add] calls to the
    iteration of the resulting set. *)
Variable set_iter : list str -> list str.

Definition dirs_to_make (files : list (str * str)) : list str :=
  set_iter (dirs_added files).

(** The order in which [main] creates folders:
    [sorted(dirs_to_make, key=lambda x: x.count("/"))]. *)
Definition DirectoryPlan (files : list (str * str)) : list str :=
  sorted (count slash) (dirs_to_make files).

End Planner.

(** What is asked of a set's iteration: each element once. *)
Definition set_iteration (set_iter : list str -> list str) : Prop :=
  forall adds, NoDup (set_iter adds) /\
               forall x, In x (set_iter adds) <-> In x adds.

Definition insertion_order : list str -> list str := nodup (list_eq_dec ascii_dec).

(** ** The local tree scanner *)

(** What [os.scandir] finds in a directory, in its order. *)
#[warnings="-register-all"]
Inductive entry : Type :=
| File (name : str)
| Dir (name : str) (children : list entry).

Definition entry_name (e : entry) : str :=
  match e with File n => n | Dir n _ => n end.

Definition dir_names (es : list entry) : list str :=
  flat_map (fun e => match e with Dir n _ => [n] | File _ => [] end) es.

Definition file_names (es : list entry) : list str :=
  flat_map (fun e => match e with File n => [n] | Dir _ _ => [] end) es.

Definition find_entry (name : str) (es : list entry) : option entry :=
  find (fun e => str_eqb (entry_name e) name) es.

Section Host.

(** [sys.platform], the Win32 call behind [ctypes.windll.kernel32] and
    [os.getcwd()]. *)
Variable sys_platform : str.
Variable GetFileAttributesW : str -> Z.
Variable getcwd : str.

Definition on_windows : bool := startswith (lit "win") sys_platform.

(** [os.sep]. *)
Definition sep : ascii := if on_windows then backslash else slash.

(** [os.path.join(a, b)].  On Windows this is [ntpath.join], which agrees
    with it on the drive-less names that [os.walk] hands out. *)
Definition os_path_join (a b : str) : str :=
  if startswith [sep] b then b
  else match a with
       | [] => a ++ b
       | _ :: _ => if Ascii.eqb (last a sep) sep then a ++ b
                   else a ++ sep :: b
       end.

(** [os.path.normpath], [abspath] and [relpath] as [posixpath] has them, on
    the separator of the host; [ntpath] agrees with them on the relative,
    drive-less paths that [build_files] passes.  First the loop of
    [normpath] over the components. *)
Definition normpath_step (initial_slashes : bool) (new_comps : list str)
    (comp : str) : list str :=
  if str_eqb comp [] || str_eqb comp [dot] then new_comps
  else if negb (str_eqb comp [dot; dot])
          || (negb initial_slashes && (length new_comps =? 0))
          || (negb (length new_comps =? 0)
              && str_eqb (last new_comps []) [dot; dot])
       then new_comps ++ [comp]
       else removelast new_comps.

Definition normpath (path : str) : str :=
  match path with
  | [] => [dot]
  | _ :: _ =>
      let initial_slashes := startswith [sep] path in
      let two := startswith [sep; sep] path
                 && negb (startswith [sep; sep; sep] path) in
      let new_comps :=
        fold_left (normpath_step initial_slashes) (split sep path) [] in
      let body := join [sep] new_comps in
      let res := if initial_slashes
                 then (if two then [sep; sep] else [sep]) ++ body
                 else body in
      str_or res [dot]
  end.

(** [os.path.abspath]. *)
Definition abspath (path : str) : str :=
  normpath (if startswith [sep] path then path
            else os_path_join getcwd path).

Fixpoint commonprefix_len (a b : list str) : nat :=
  match a, b with
  | x :: a', y :: b' => if str_eqb x y then S (commonprefix_len a' b') else 0
  | _, _ => 0
  end.

Definition nonempty_parts (p : str) : list str :=
  filter (fun x => negb (str_eqb x [])) (split sep p).

(** [os.path.relpath(path, start)]. *)
Definition relpath (path start : str) : str :=
  let start_list := nonempty_parts (abspath start) in
  let path_list := nonempty_parts (abspath path) in
  let i := commonprefix_len start_list path_list in
  let rel_list :=
    repeat [dot; dot] (length start_list - i) ++ skipn i path_list in
  match rel_list with
  | [] => [dot]
  | first :: rest => fold_left os_path_join rest first
  end.

(** [is_hidden]: the attribute bit on Windows, the leading dot elsewhere. *)
Definition FILE_ATTRIBUTE_HIDDEN : Z := 2.

Definition is_hidden (filepath : str) : bool :=
  if on_windows then
    let attrs := GetFileAttributesW filepath in
    if (attrs =? -1)%Z then false
    else negb (Z.land attrs FILE_ATTRIBUTE_HIDDEN =? 0)%Z
  else startswith [dot] (basename filepath).

(** [os.walk(top)], top down, together with the in-place edit
    [dirs[:] = [d for d in dirs if not is_hidden(os.path.join(root, d))]]
    that the loop of [build_files] makes before the generator resumes: a
    triple is (root, the directories left in dirs, files), and the walk
    descends only into the directories left.  [os.walk] is called without
    [onerror], so when [os.scandir] fails on [top] (no such directory, not a
    directory) it yields nothing. *)
Fixpoint walk (top : str) (e : entry) {struct e}
    : list (str * list str * list str) :=
  match e with
  | File _ => []
  | Dir _ children =>
      (top,
       filter (fun d => negb (is_hidden (os_path_join top d)))
              (dir_names children),
       file_names children)
      :: flat_map
           (fun sub =>
              match sub with
              | File _ => []
              | Dir d _ =>
                  if negb (is_hidden (os_path_join top d))
                  then walk (os_path_join top d) sub else []
              end)
           children
  end.

(** [os.walk("upload")] in a working directory that holds [cwd_entries]. *)
Definition os_walk (cwd_entries : list entry)
    : list (str * list str * list str) :=
  match find_entry (lit "upload") cwd_entries with
  | Some e => walk (lit "upload") e
  | None => []
  end.

(** The body of the inner loop of [build_files] for one file name. *)
Definition scan_file (root file : str) : list (str * str) :=
  let local_path := os_path_join root file in
  if is_hidden local_path then []
  else
    let rel_path := relpath local_path (lit "upload") in
    let remote_path := replace backslash slash rel_path in
    [(local_path, remote_path)].

Definition build_files (cwd_entries : list entry) : list (str * str) :=
  flat_map (fun t => match t with
                     | (root, _, files) => flat_map (scan_file root) files
                     end)
           (os_walk cwd_entries).

End Host.

Definition scenario_tree : list entry :=
  [Dir (lit "upload")
     [Dir (lit "cfg")
        [File (lit "a.txt"); Dir (lit "sub") [File (lit "b.txt")]];
      Dir (lit ".hidden") [File (lit "c.txt")]]].

(** ** The panel and the effects of the asynchronous functions *)

(** The exceptions that the code tells apart ([fetch] catches the first
    three; [ContentTypeError] is a [ClientError]), any other one, and the one
    [main] raises itself. *)
Inductive exn : Type :=
| TimeoutError
| ClientError
| ContentTypeError
| OtherError
| Exception (msg : str).

(** What an awaited request gives: an exception, or a response with its
    status and what the code reads of its body. *)
Inductive reply (A : Type) : Type :=
| Raised (e : exn)
| Response (status : Z) (body : A).
Arguments Raised {A} e.

(** [await resp.json()] and, where the same function goes on to index the
    result, that indexing. *)
Inductive parsed (A : Type) : Type :=
| Json (a : A)
| BadJson (e : exn).
Arguments BadJson {A} e.

(** An item of a directory listing: [attributes.name], [attributes.is_file]. *)
Record item : Type := { item_name : str; is_file : bool }.

(** The attributes of a server in the reply of [/api/client]. *)
Record server_attrs : Type :=
  { docker_image : str; name : str; uuid : str; identifier : str }.

Record Server : Type := { UUID : str; Identifier : str; Name : str }.

(** What [response.json()] gives for [/api/client], as far as
    [build_server_list] can tell values apart: a dictionary whose [data] is a
    list of servers that have the four attributes read; a value that is
    false in [if data:] (null, which is Python's [None], or an empty
    container); any other value, on which the indexing raises. *)
Inductive client_data : Type :=
| Servers (servers : list server_attrs)
| Falsy
| Misshaped (e : exn).

(** The module's settings that decide behaviour.  [PANEL_URL] and [API_KEY]
    only go into the address and the header of every request. *)
Record Config : Type :=
  { DEBUG : bool; valid_images : list str; exclude_servers : list str }.

Definition module_config : Config :=
  {| DEBUG := false;
     valid_images := [lit "docker.io/sples1/k4ryuu-cs2:latest"];
     exclude_servers := [lit "1v1"] |}.

(** The outside world: the panel behind the five requests, and the local
    files that [open] reads.  Every call may change the world. *)
Record Panel (W : Type) : Type :=
  { (* GET /api/client: what [response.json()] returns *)
    get_client : W -> reply (parsed client_data) * W;
    (* GET servers/{server_id}/files/list?directory= *)
    get_files_list : str -> str -> W -> reply (parsed (list item)) * W;
    (* POST servers/{id}/files/create-folder {name, root}: the text *)
    post_create_folder : str -> str -> str -> W -> reply str * W;
    (* GET servers/{server_id}/files/upload?directory=: the text and
       [attributes.url] *)
    get_files_upload : str -> str -> W -> reply (str * parsed str) * W;
    (* open(local_path, "rb") *)
    open_rb : str -> W -> option exn * W;
    (* POST signed_url?directory= with the file as the form: the text *)
    post_signed_url : str -> str -> str -> W -> reply str * W }.

(** The lines [print] writes. *)
Inductive line : Type :=
| NonJsonResponse
| RequestFailed (status : Z)
| TimeoutFetching
| NetworkError (e : exn)
| FailedToList (path : str) (status : Z)
| ErrorCheckingFolder (path : str) (e : exn)
| FolderAlreadyExists (root name : str)
| CreatedFolder (root name : str)
| FailedToCreateFolder (name root : str) (status : Z) (text : str)
| FailedToGetUploadURL (remote_path : str) (status : Z) (text : str)
| Uploaded (local_path remote_path : str)
| UploadFailed (local_path remote_path : str) (status : Z) (text : str)
| EnsuringFolderStructure (server_name : str)
| StartingFileUpload (server_name : str).

(** What a run does that can be seen from outside, in order. *)
Inductive event : Type :=
| Stdout (l : line)
| GetClient
| GetFilesList (server_id directory : str)
| PostCreateFolder (id name root : str)
| GetFilesUpload (server_id directory : str)
| OpenFile (local_path : str)
| PostSignedUrl (signed_url directory local_path : str).

Inductive result (A : Type) : Type :=
| Ok (a : A)
| Raise (e : exn).
Arguments Raise {A} e.

Section Effects.

Variable W : Type.

Record state : Type := { world : W; trace : list event }.

(** A computation either returns or raises, and leaves a state. *)
Definition M (A : Type) : Type := state -> result A * state.

Definition ret {A} (a : A) : M A := fun st => (Ok a, st).

Definition raise {A} (e : exn) : M A := fun st => (Raise e, st).

Definition bind {A B} (m : M A) (k : A -> M B) : M B :=
  fun st =>
    match m st with
    | (Ok a, st') => k a st'
    | (Raise e, st') => (Raise e, st')
    end.

Definition emit (ev : event) : M unit :=
  fun st => (Ok tt, {| world := world st; trace := trace st ++ [ev] |}).

Definition print (l : line) : M unit := emit (Stdout l).

(** A call on the outside world, recorded in the trace. *)
Definition request {A} (ev : event) (h : W -> A * W) : M A :=
  fun st =>
    let (a, w) := h (world st) in
    (Ok a, {| world := w; trace := trace st ++ [ev] |}).

(** [for x in l: body(x)]. *)
Fixpoint for_each {A} (l : list A) (body : A -> M unit) : M unit :=
  match l with
  | [] => ret tt
  | x :: r => bind (body x) (fun _ => for_each r body)
  end.

End Effects.

Arguments ret {W A} a.
Arguments raise {W A} e.
Arguments bind {W A B} m k.
Arguments emit {W} ev.
Arguments print {W} l.
Arguments request {W A} ev h.
Arguments for_each {W A} l body.

Notation "x <- m ;; k" := (bind m (fun x => k))
  (at level 61, m at next level, right associativity).
Notation "m ;; k" := (bind m (fun _ => k))
  (at level 61, right associativity).

(** ** The functions of sync.py *)

Section Sync.

Variable W : Type.
Variable panel : Panel W.
Variable cfg : Config.

(** The handlers of [fetch]: [except TimeoutError] and
    [except ClientError]; any other exception goes on. *)
Definition fetch_except (e : exn) : M W (option client_data) :=
  match e with
  | TimeoutError => print TimeoutFetching ;; ret None
  | ClientError | ContentTypeError => print (NetworkError e) ;; ret None
  | OtherError | Exception _ => raise e
  end.

(** [fetch(session, f"{PANEL_URL}/api/client", headers)].  It returns what
    [response.json()] gives, [Some data], or the [None] of its own failure
    branches. *)
Definition fetch : M W (option client_data) :=
  r <- request GetClient (get_client panel) ;;
  match r with
  | Raised e => fetch_except e
  | Response status body =>
      if (status =? 200)%Z then
        match body with
        | Json data => ret (Some data)
        | BadJson ContentTypeError => print NonJsonResponse ;; ret None
        | BadJson e => fetch_except e
        end
      else print (RequestFailed status) ;; ret None
  end.

(** The loop [for excluded in exclude_servers: if excluded in name:
    continue].  Its [continue] goes on with the next [excluded]; the loop
    ends without having done anything. *)
Fixpoint exclude_loop (excluded_names : list str) (name : str) : unit :=
  match excluded_names with
  | [] => tt
  | excluded :: rest =>
      if contains excluded name then exclude_loop rest name
      else exclude_loop rest name
  end.

(** One turn of [for server in data["data"]]: the servers to append. *)
Definition server_turn_of_list (attrs : server_attrs) : list Server :=
  match exclude_loop (exclude_servers cfg) (name attrs) with
  | tt =>
      if DEBUG cfg && negb (contains (lit "Dev") (name attrs)) then []
      else if negb (existsb (str_eqb (docker_image attrs))
                            (valid_images cfg)) then []
      else [{| UUID := uuid attrs;
               Identifier := identifier attrs;
               Name := name attrs |}]
  end.

(** [build_server_list]: [if data:] and the loop over [data["data"]],
    whose indexing is not guarded. *)
Definition build_server_list : M W (list Server) :=
  data <- fetch ;;
  match data with
  | Some (Servers servers) => ret (flat_map server_turn_of_list servers)
  | Some (Misshaped e) => raise e
  | Some Falsy | None => ret []
  end.

(** [folder_exists]: everything after the request sits in a
    [try ... except Exception]. *)
Definition folder_exists (server_id path directory : str) : M W bool :=
  r <- request (GetFilesList server_id (str_or path [slash]))
               (get_files_list panel server_id (str_or path [slash])) ;;
  match r with
  | Raised e => print (ErrorCheckingFolder path e) ;; ret false
  | Response status body =>
      if (status =? 200)%Z then
        match body with
        | Json data =>
            ret (existsb (fun it => str_eqb (item_name it) directory
                                    && negb (is_file it)) data)
        | BadJson e => print (ErrorCheckingFolder path e) ;; ret false
        end
      else print (FailedToList path status) ;; ret false
  end.

(** [create_folder]. *)
Definition create_folder (id name root : str) : M W bool :=
  found <- folder_exists id root name ;;
  if found then
    (if DEBUG cfg then print (FolderAlreadyExists root name) else ret tt) ;;
    ret true
  else
    r <- request (PostCreateFolder id name (str_or root [slash]))
                 (post_create_folder panel id name (str_or root [slash])) ;;
    match r with
    | Raised e => raise e
    | Response status text =>
        if (status =? 204)%Z then
          print (CreatedFolder root name) ;; ret true
        else if (status =? 400)%Z then ret true
        else print (FailedToCreateFolder name root status text) ;;
             ret false
    end.

(** [upload_file]. *)
Definition upload_file (server_id local_path remote_path : str) : M W bool :=
  let directory := remote_directory remote_path in
  r <- request (GetFilesUpload server_id directory)
               (get_files_upload panel server_id directory) ;;
  match r with
  | Raised e => raise e
  | Response status (text, data) =>
      if negb (status =? 200)%Z then
        print (FailedToGetUploadURL remote_path status text) ;;
        ret false
      else
        match data with
        | BadJson e => raise e
        | Json signed_url =>
            opened <- request (OpenFile local_path)
                              (open_rb panel local_path) ;;
            match opened with
            | Some e => raise e
            | None =>
                u <- request
                       (PostSignedUrl signed_url directory local_path)
                       (post_signed_url panel signed_url directory
                          local_path) ;;
                match u with
                | Raised e => raise e
                | Response upload_status upload_text =>
                    (if (upload_status =? 200)%Z || (upload_status =? 204)%Z
                     then print (Uploaded local_path remote_path)
                     else print (UploadFailed local_path remote_path
                                   upload_status upload_text)) ;;
                    ret true
                end
            end
        end
  end.

(** The parts of a server's turn in [main]. *)
Variable set_iter : list str -> list str.

Definition failed_to_create (root name server_name : str) : exn :=
  Exception (lit "Failed to create folder " ++ root ++ lit "/" ++ name
             ++ lit " on " ++ server_name).

(** The body of [for path in sorted(dirs_to_make, ...)]. *)
Definition make_folder (server : Server) (path : str) : M W unit :=
  let name := basename path in
  let root := str_or (dirname path) [slash] in
  created <- create_folder (Identifier server) name root ;;
  if negb created then raise (failed_to_create root name (Name server))
  else ret tt.

Definition make_folders (server : Server) (files : list (str * str))
    : M W unit :=
  for_each (DirectoryPlan set_iter files) (make_folder server).

(** [for (local, rel) in files: await upload_file(...)]; the result of
    [upload_file] is dropped. *)
Definition upload_files (server : Server) (files : list (str * str))
    : M W unit :=
  for_each files
    (fun f => upload_file (Identifier server) (fst f) (snd f) ;; ret tt).

(** The body of [for server in servers]. *)
Definition server_turn (files : list (str * str)) (server : Server)
    : M W unit :=
  print (EnsuringFolderStructure (Name server)) ;;
  make_folders server files ;;
  print (StartingFileUpload (Name server)) ;;
  upload_files server files.

(** The loop of [main] over the servers. *)
Definition run_servers (files : list (str * str)) (servers : list Server)
    : M W unit :=
  for_each servers (server_turn files).

Variable sys_platform : str.
Variable GetFileAttributesW : str -> Z.
Variable getcwd : str.

Definition main (cwd_entries : list entry) : M W unit :=
  let files :=
    build_files sys_platform GetFileAttributesW getcwd cwd_entries in
  servers <- build_server_list ;;
  run_servers files servers.

End Sync.

(** * What the properties are stated with *)


(** [P] lies strictly above [Q]: [Q] is [P], a slash and something more. *)
Definition proper_ancestor (P Q : str) : Prop :=
  exists rest, Q = P ++ slash :: rest.

(** The root, as ["/"] or as the empty prefix of an absolute path. *)
Definition is_root (P : str) : Prop := P = [] \/ P = [slash].

(** [P] is the directory [D] or lies above it, and is not the root. *)
Definition dir_prefix (P D : str) : Prop :=
  ~ is_root P /\ (P = D \/ proper_ancestor P D).

(** The order [sorted] sorts by. *)
Definition key_le (key : str -> nat) (a b : str) : Prop := key a <= key b.

(** ** The scanner *)

(** Induction on a tree, with the hypothesis for every child. *)
Fixpoint entry_nested_ind (P : entry -> Prop)
    (HF : forall n, P (File n))
    (HD : forall n children, Forall P children -> P (Dir n children))
    (e : entry) {struct e} : P e :=
  match e with
  | File n => HF n
  | Dir n children =>
      HD n children
         ((fix all (l : list entry) : Forall P l :=
             match l with
             | [] => @Forall_nil _ P
             | x :: r => @Forall_cons _ P x r (@entry_nested_ind P HF HD x) (all r)
             end) children)
  end.

Section Reached.

Variable sys_platform : str.
Variable GetFileAttributesW : str -> Z.
Variable cwd_entries : list entry.

(** [unhidden_dir root e]: the directory [e] of the tree sits at the path
    [root], and every directory on the way from the scan root down to it,
    itself included and the scan root excluded, is not hidden. *)
Inductive unhidden_dir : str -> entry -> Prop :=
| unhidden_top (e : entry) :
    find_entry (lit "upload") cwd_entries = Some e ->
    unhidden_dir (lit "upload") e
| unhidden_sub (root n : str) (children : list entry) (d : str)
    (sub : list entry) :
    unhidden_dir root (Dir n children) ->
    In (Dir d sub) children ->
    is_hidden sys_platform GetFileAttributesW (os_path_join sys_platform root d)
    = false ->
    unhidden_dir (os_path_join sys_platform root d) (Dir d sub).

End Reached.

(** ** The panel *)

(** The listing shows a folder called [name]: status 200 and, in the items,
    one of that name that is not a file. *)
Definition finds_folder (r : reply (parsed (list item))) (name : str) : Prop :=
  exists data,
    r = Response 200 (Json data) /\
    exists it, In it data /\ item_name it = name /\ is_file it = false.

(** The existence check fails: the request raises, or answers with another
    status than 200, or with a body that cannot be read. *)
Definition check_fails (r : reply (parsed (list item))) : Prop :=
  match r with
  | Raised _ => True
  | Response status body => status <> 200%Z \/ exists e, body = BadJson e
  end.

(** The lines printed and the upload destinations asked for, in a trace. *)
Definition printed (evs : list event) : list line :=
  flat_map (fun ev => match ev with Stdout l => [l] | _ => [] end) evs.

Definition upload_requests (evs : list event) : list (str * str) :=
  flat_map (fun ev => match ev with
                      | GetFilesUpload id d => [(id, d)]
                      | _ => []
                      end) evs.

(** The line reports the outcome of the upload of the file [f]. *)
Definition about (f : str * str) (l : line) : Prop :=
  match l with
  | FailedToGetUploadURL remote_path _ _ => remote_path = snd f
  | Uploaded local_path remote_path
  | UploadFailed local_path remote_path _ _ =>
      local_path = fst f /\ remote_path = snd f
  | _ => False
  end.

(** Every request of the upload pipeline is answered with a status, good or
    bad: none raises, a 200 for a destination carries its address, and the
    local file opens. *)
Definition answers_with_status (W : Type) (panel : Panel W) : Prop :=
  (forall id d w,
      exists status text data,
        fst (get_files_upload panel id d w) = Response status (text, data) /\
        (status = 200%Z -> exists url, data = Json url)) /\
  (forall p w, fst (open_rb panel p w) = None) /\
  (forall url d p w,
      exists status text,
        fst (post_signed_url panel url d p w) = Response status text).

(** The whole upload of one file against answers with statuses, from the
    world [w] in which its turn comes: the events it causes, which only its
    own three calls decide, and the world it leaves.  A destination that is
    refused ends it with the printed refusal; a destination that is granted
    is followed by the opening of the file, the transfer to the address
    given and the printed outcome of the transfer. *)
Inductive attempt (W : Type) (panel : Panel W)
    (server_id local_path remote_path : str) : W -> list event -> W -> Prop :=
| attempt_refused (w : W) (status : Z) (text : str) (data : parsed str) :
    fst (get_files_upload panel server_id (remote_directory remote_path) w)
    = Response status (text, data) ->
    status <> 200%Z ->
    attempt panel server_id local_path remote_path w
      [GetFilesUpload server_id (remote_directory remote_path);
       Stdout (FailedToGetUploadURL remote_path status text)]
      (snd (get_files_upload panel server_id (remote_directory remote_path)
              w))
| attempt_transfer (w : W) (text url : str) (upload_status : Z)
    (upload_text : str) :
    fst (get_files_upload panel server_id (remote_directory remote_path) w)
    = Response 200 (text, Json url) ->
    fst (open_rb panel local_path
           (snd (get_files_upload panel server_id
                   (remote_directory remote_path) w))) = None ->
    fst (post_signed_url panel url (remote_directory remote_path) local_path
           (snd (open_rb panel local_path
                   (snd (get_files_upload panel server_id
                           (remote_directory remote_path) w)))))
    = Response upload_status upload_text ->
    attempt panel server_id local_path remote_path w
      [GetFilesUpload server_id (remote_directory remote_path);
       OpenFile local_path;
       PostSignedUrl url (remote_directory remote_path) local_path;
       Stdout (if (upload_status =? 200)%Z || (upload_status =? 204)%Z
               then Uploaded local_path remote_path
               else UploadFailed local_path remote_path upload_status
                      upload_text)]
      (snd (post_signed_url panel url (remote_directory remote_path)
              local_path
              (snd (open_rb panel local_path
                      (snd (get_files_upload panel server_id
                              (remote_directory remote_path) w)))))).

(** The uploads of a list of files, one whole attempt after the other, each
    from the world that the one before leaves. *)
Inductive attempts (W : Type) (panel : Panel W) (server_id : str)
    : list (str * str) -> W -> list event -> W -> Prop :=
| attempts_nil (w : W) : attempts panel server_id [] w [] w
| attempts_cons (local_path remote_path : str) (rest : list (str * str))
    (w w1 w2 : W) (evs1 evs2 : list event) :
    attempt panel server_id local_path remote_path w evs1 w1 ->
    attempts panel server_id rest w1 evs2 w2 ->
    attempts panel server_id ((local_path, remote_path) :: rest) w
      (evs1 ++ evs2) w2.

(** ** A panel to run the functions on *)

(** A panel without state: every request is answered by its arguments. *)
Record answers : Type :=
  { servers_listed : reply (parsed client_data);
    listing : str -> str -> reply (parsed (list item));
    creation : str -> str -> str -> reply str;
    destination : str -> str -> reply (str * parsed str);
    opening : str -> option exn;
    transfer : str -> str -> str -> reply str }.

Definition stateless (a : answers) : Panel unit :=
  {| get_client := fun w => (servers_listed a, w);
     get_files_list := fun id d w => (listing a id d, w);
     post_create_folder := fun id n r w => (creation a id n r, w);
     get_files_upload := fun id d w => (destination a id d, w);
     open_rb := fun p w => (opening a p, w);
     post_signed_url := fun u d p w => (transfer a u d p, w) |}.

Definition start : state unit := {| world := tt; trace := [] |}.

Definition cs2_image : str := lit "docker.io/sples1/k4ryuu-cs2:latest".

Definition alpha : server_attrs :=
  {| docker_image := cs2_image; name := lit "Alpha";
     uuid := lit "0a0a"; identifier := lit "a1" |}.

Definition beta : server_attrs :=
  {| docker_image := cs2_image; name := lit "Beta";
     uuid := lit "0b0b"; identifier := lit "b2" |}.

Definition arena : server_attrs :=
  {| docker_image := cs2_image; name := lit "Server 1v1 Arena";
     uuid := lit "0c0c"; identifier := lit "c3" |}.

(** A panel on which everything succeeds: no folder is there yet, every
    folder is created and every upload goes through. *)
Definition healthy (servers : list server_attrs) : answers :=
  {| servers_listed := Response 200 (Json (Servers servers));
     listing := fun _ _ => Response 200 (Json []);
     creation := fun _ _ _ => Response 204 [];
     destination := fun _ _ => Response 200 ([], Json (lit "https://node/up"));
     opening := fun _ => None;
     transfer := fun _ _ _ => Response 200 [] |}.

(** The same, except that the server [a1] refuses to create folders. *)
Definition alpha_refuses : answers :=
  {| servers_listed := Response 200 (Json (Servers [alpha; beta]));
     listing := fun _ _ => Response 200 (Json []);
     creation := fun id _ _ =>
       if str_eqb id (lit "a1") then Response 500 (lit "denied")
       else Response 204 [];
     destination := fun _ _ => Response 200 ([], Json (lit "https://node/up"));
     opening := fun _ => None;
     transfer := fun _ _ _ => Response 200 [] |}.

(** A panel on which listings fail, destinations under [/cfg/sub] are
    refused and every transfer fails. *)
Definition flaky : answers :=
  {| servers_listed := Response 200 (Json (Servers [alpha]));
     listing := fun _ _ => Response 502 (BadJson ContentTypeError);
     creation := fun _ _ _ => Response 400 [];
     destination := fun _ d =>
       if str_eqb d (lit "/cfg/sub") then Response 403 (lit "no", BadJson OtherError)
       else Response 200 ([], Json (lit "https://node/up"));
     opening := fun _ => None;
     transfer := fun _ _ _ => Response 500 (lit "disk full") |}.

Definition scenario_files : list (str * str) :=
  [(lit "upload/cfg/a.txt", lit "cfg/a.txt");
   (lit "upload/cfg/sub/b.txt", lit "cfg/sub/b.txt")].

Definition run_main (a : answers) (cwd_entries : list entry)
    : result unit * state unit :=
  main (stateless a) module_config insertion_order (lit "linux")
       (fun _ => 0%Z) (lit "/home/sync") cwd_entries start.

Definition cfg_server : Server :=
  {| UUID := lit "0a0a"; Identifier := lit "a1"; Name := lit "Alpha" |}.

(** ** [ensure_folders] *)

Section EnsureFolders.

Variable W : Type.
Variable panel : Panel W.
Variable cfg : Config.

(** [os.path.join] on a host where [os.path] is [posixpath]. *)
Definition posixpath_join : str -> str -> str := os_path_join [].

(** The loop of [ensure_folders] over [parts], from [current_root] on. *)
Fixpoint ensure_parts (id : str) (parts : list str) (current_root : str)
    : M W bool :=
  match parts with
  | [] => ret true
  | part :: rest =>
      if str_eqb part [] then ensure_parts id rest current_root
      else
        created <- create_folder panel cfg id part current_root ;;
        if negb created then ret false
        else ensure_parts id rest
               (replace backslash slash (posixpath_join current_root part))
  end.

(** [ensure_folders(session, id, path)], on a host that is not Windows. *)
Definition ensure_folders (id path : str) : M W bool :=
  ensure_parts id (split slash (strip slash path)) [slash].

End EnsureFolders.

(** ** More to state properties with *)

(** A name as [os.scandir] gives it: not empty, without the separator, and
    neither [.] nor [..]. *)
Definition good_name (sep : ascii) (n : str) : bool :=
  negb (str_eqb n []) && negb (existsb (Ascii.eqb sep) n)
  && negb (str_eqb n [dot]) && negb (str_eqb n [dot; dot]).

(** All the names in a tree are such names. *)
Fixpoint names_ok (sep : ascii) (e : entry) {struct e} : bool :=
  match e with
  | File n => good_name sep n
  | Dir n children => good_name sep n && forallb (names_ok sep) children
  end.

(** The servers that the image list and, under [DEBUG], the marker let
    through, and the record made of one. *)
Definition eligible (cfg : Config) (attrs : server_attrs) : bool :=
  (negb (DEBUG cfg) || contains (lit "Dev") (name attrs))
  && existsb (str_eqb (docker_image attrs)) (valid_images cfg).

Definition as_server (attrs : server_attrs) : Server :=
  {| UUID := uuid attrs; Identifier := identifier attrs;
     Name := name attrs |}.

(** The requests of the folder phase and of the upload phase, in a trace. *)
Definition list_requests (evs : list event) : list (str * str) :=
  flat_map (fun ev => match ev with
                      | GetFilesList id d => [(id, d)]
                      | _ => []
                      end) evs.

Definition folder_events (evs : list event) : list event :=
  filter (fun ev => match ev with
                    | GetFilesList _ _ | PostCreateFolder _ _ _ => true
                    | _ => false
                    end) evs.

Definition upload_events (evs : list event) : list event :=
  filter (fun ev => match ev with
                    | GetFilesUpload _ _ | OpenFile _ | PostSignedUrl _ _ _ =>
                        true
                    | _ => false
                    end) evs.

(** A component that [normpath] keeps: not empty, without the separator. *)
Definition part_ok (sep : ascii) (q : str) : Prop := q <> [] /\ ~ In sep q.

(** The exceptions that [fetch] catches. *)
Definition caught (e : exn) : Prop :=
  e = TimeoutError \/ e = ClientError \/ e = ContentTypeError.

(** The events of the folder phase: listings, creations and printed lines;
    and those of the upload phase. *)
Definition folder_phase (ev : event) : Prop :=
  match ev with
  | GetFilesList _ _ | PostCreateFolder _ _ _ | Stdout _ => True
  | _ => False
  end.

Definition upload_phase (ev : event) : Prop :=
  match ev with
  | GetFilesUpload _ _ | OpenFile _ | PostSignedUrl _ _ _ | Stdout _ => True
  | _ => False
  end.

(** Every create request is answered with 204 or 400. *)
Definition creates_folders (W : Type) (panel : Panel W) : Prop :=
  forall id n r w,
    exists status text,
      fst (post_create_folder panel id n r w) = Response status text /\
      (status = 204%Z \/ status = 400%Z).

(** A panel that cannot be reached, and one whose first folder is there. *)
Definition unreachable : answers :=
  {| servers_listed := Raised TimeoutError;
     listing := fun _ _ => Raised ClientError;
     creation := fun _ _ _ => Raised ClientError;
     destination := fun _ _ => Raised ClientError;
     opening := fun _ => None;
     transfer := fun _ _ _ => Raised ClientError |}.

(** A panel on which folders are made but no upload destination is given. *)
Definition upload_breaks : answers :=
  {| servers_listed := Response 200 (Json (Servers [alpha; beta]));
     listing := fun _ _ => Response 200 (Json []);
     creation := fun _ _ _ => Response 204 [];
     destination := fun _ _ => Raised ClientError;
     opening := fun _ => None;
     transfer := fun _ _ _ => Response 200 [] |}.


Definition cfg_is_there : answers :=
  {| servers_listed := Response 200 (Json (Servers [alpha; arena]));
     listing := fun _ d =>
       if str_eqb d [slash]
       then Response 200 (Json [{| item_name := lit "cfg"; is_file := false |}])
       else Response 200 (Json []);
     creation := fun _ _ _ => Raised ClientError;
     destination := fun _ _ =>
       Response 200 ([], BadJson ContentTypeError);
     opening := fun _ => None;
     transfer := fun _ _ _ => Response 200 [] |}.

(** * Properties *)

(** ** Strings and paths *)

Lemma str_eqb_eq (a b : str) : str_eqb a b = true <-> a = b.
Proof.
  unfold str_eqb. destruct (list_eq_dec ascii_dec a b); split; congruence.
Qed.

Lemma split_not_nil (c : ascii) (s : str) : split c s <> [].
Proof.
  destruct s as [|x r]; simpl; [discriminate|].
  destruct (Ascii.eqb x c); [discriminate|].
  destruct (split c r); discriminate.
Qed.

Lemma split_length (c : ascii) (s : str) : 1 <= length (split c s).
Proof.
  pose proof (split_not_nil c s). destruct (split c s); simpl; [congruence|lia].
Qed.

Lemma join_cons2 (sep p q : str) (r : list str) :
  join sep (p :: q :: r) = p ++ sep ++ join sep (q :: r).
Proof. reflexivity. Qed.

Lemma join_cons_char (sep : str) (x : ascii) (h : str) (t : list str) :
  join sep ((x :: h) :: t) = x :: join sep (h :: t).
Proof. destruct t; reflexivity. Qed.

Lemma join_split (c : ascii) (s : str) : join [c] (split c s) = s.
Proof.
  induction s as [|x r IH]; [reflexivity|].
  simpl split. destruct (Ascii.eqb_spec x c) as [->|Hne].
  - pose proof (split_not_nil c r) as Hn.
    destruct (split c r) as [|h t] eqn:E; [congruence|].
    rewrite join_cons2, IH. reflexivity.
  - pose proof (split_not_nil c r) as Hn.
    destruct (split c r) as [|h t] eqn:E; [congruence|].
    rewrite join_cons_char, IH. reflexivity.
Qed.

(** The prefixes [join (parts[:i])] of a split string are the string cut
    before one of its separators, or whole. *)
Lemma join_firstn_split (c : ascii) (x : str) (i : nat) :
  1 <= i <= length (split c x) ->
  join [c] (firstn i (split c x)) = x \/
  exists rest, x = join [c] (firstn i (split c x)) ++ c :: rest.
Proof.
  revert i. induction x as [|a r IH]; intros i Hi.
  - simpl in *. assert (i = 1) by lia. subst. left. reflexivity.
  - simpl split in *. pose proof (split_not_nil c r) as Hn.
    destruct (split c r) as [|h t] eqn:E; [congruence|].
    destruct (Ascii.eqb_spec a c) as [->|Hne].
    + destruct i as [|[|k]]; [lia| |].
      * right. exists r. reflexivity.
      * change (firstn (S (S k)) ([] :: h :: t))
          with ([] :: h :: firstn k t).
        rewrite join_cons2. cbn [app].
        destruct (IH (S k) ltac:(simpl in *; lia)) as [He|[rest He]];
          change (firstn (S k) (h :: t)) with (h :: firstn k t) in He.
        -- left. f_equal. exact He.
        -- right. exists rest. f_equal. exact He.
    + destruct i as [|k]; [lia|].
      change (firstn (S k) ((a :: h) :: t)) with ((a :: h) :: firstn k t).
      rewrite join_cons_char. cbn [app].
      destruct (IH (S k) ltac:(simpl in *; lia)) as [He|[rest He]];
        change (firstn (S k) (h :: t)) with (h :: firstn k t) in He.
      * left. f_equal. exact He.
      * right. exists rest. f_equal. exact He.
Qed.

Lemma split_firstn_cut (c : ascii) (y rest : str) :
  exists i, 1 <= i <= length (split c (y ++ c :: rest)) /\
            join [c] (firstn i (split c (y ++ c :: rest))) = y.
Proof.
  induction y as [|a y IH].
  - exists 1. simpl. rewrite Ascii.eqb_refl. simpl. split; [lia|reflexivity].
  - destruct IH as (i & Hi & He).
    pose proof (split_not_nil c (y ++ c :: rest)) as Hn.
    destruct i as [|k]; [lia|].
    cbn [app]. simpl split.
    destruct (split c (y ++ c :: rest)) as [|h t] eqn:E; [congruence|].
    change (firstn (S k) (h :: t)) with (h :: firstn k t) in He.
    destruct (Ascii.eqb_spec a c) as [->|Hne].
    + exists (S (S k)). split; [simpl in *; lia|].
      change (firstn (S (S k)) ([] :: h :: t)) with ([] :: h :: firstn k t).
      rewrite join_cons2, He. reflexivity.
    + exists (S k). split; [simpl in *; lia|].
      change (firstn (S k) ((a :: h) :: t)) with ((a :: h) :: firstn k t).
      rewrite join_cons_char, He. reflexivity.
Qed.

Lemma lstrip_head (c : ascii) (s : str) :
  lstrip c s = [] \/ exists a r, lstrip c s = a :: r /\ a <> c.
Proof.
  induction s as [|x r IH]; [left; reflexivity|].
  simpl. destruct (Ascii.eqb_spec x c) as [->|Hne]; [exact IH|].
  right. exists x, r. split; [reflexivity|assumption].
Qed.

Lemma lstrip_keeps_last (c a : ascii) (s : str) :
  a <> c -> exists r, lstrip c (s ++ [a]) = r ++ [a].
Proof.
  intros Hne. induction s as [|x s IH].
  - exists []. simpl. destruct (Ascii.eqb_spec a c); [contradiction|reflexivity].
  - simpl. destruct (Ascii.eqb x c); [exact IH|].
    exists (x :: s). reflexivity.
Qed.

Lemma lstrip_all_sep (c : ascii) (s : str) :
  all_sep c s = true -> lstrip c s = [].
Proof.
  induction s as [|x r IH]; [reflexivity|].
  simpl. destruct (Ascii.eqb x c); [exact IH|discriminate].
Qed.

Lemma lstrip_fixed (c a : ascii) (r : str) :
  a <> c -> lstrip c (a :: r) = a :: r.
Proof.
  intros Hne. simpl. destruct (Ascii.eqb_spec a c); [contradiction|reflexivity].
Qed.

Lemma rstrip_fixed (c a : ascii) (r : str) :
  a <> c -> rstrip c (r ++ [a]) = r ++ [a].
Proof.
  intros Hne. unfold rstrip. rewrite rev_app_distr. simpl rev at 2.
  cbn [app]. rewrite lstrip_fixed by assumption.
  simpl. rewrite rev_involutive. reflexivity.
Qed.

Lemma rstrip_last (c : ascii) (s : str) :
  rstrip c s = [] \/ exists r a, rstrip c s = r ++ [a] /\ a <> c.
Proof.
  unfold rstrip. destruct (lstrip_head c (rev s)) as [->|(a & r & -> & Hne)].
  - left. reflexivity.
  - right. exists (rev r), a. split; [reflexivity|assumption].
Qed.

(** The directory that [remote_directory] puts after its leading slash is
    empty, or begins and ends with something else than a slash. *)
Lemma remote_directory_shape (remote_path : str) :
  lstrip slash (dirname remote_path) = [] \/
  exists a r b r',
    lstrip slash (dirname remote_path) = a :: r /\ a <> slash /\
    lstrip slash (dirname remote_path) = r' ++ [b] /\ b <> slash.
Proof.
  assert (Hd : lstrip slash (dirname remote_path) = [] \/
               exists r b, dirname remote_path = r ++ [b] /\ b <> slash).
  { unfold dirname.
    destruct (firstn (rfind_succ slash remote_path) remote_path)
      as [|x head] eqn:E; [left; reflexivity|].
    destruct (all_sep slash (x :: head)) eqn:A.
    - left. apply lstrip_all_sep. exact A.
    - destruct (rstrip_last slash (x :: head)) as [->|(r & b & -> & Hb)].
      + left. reflexivity.
      + right. exists r, b. split; [reflexivity|assumption]. }
  destruct Hd as [H|(r & b & Hd & Hb)]; [left; exact H|].
  destruct (lstrip_keeps_last r Hb) as [r' Hr'].
  rewrite Hd. rewrite Hr'.
  destruct (lstrip_head slash (r ++ [b])) as [H|(a & r0 & H & Ha)].
  - rewrite Hr' in H. destruct r'; discriminate.
  - right. exists a, r0, b, r'. rewrite <- Hr'. repeat split; assumption.
Qed.

Lemma strip_remote_directory (remote_path : str) :
  lstrip slash (dirname remote_path) <> [] ->
  strip slash (remote_directory remote_path)
  = lstrip slash (dirname remote_path).
Proof.
  intros Hne. unfold remote_directory, strip.
  destruct (remote_directory_shape remote_path)
    as [H|(a & r & b & r' & H1 & Ha & H2 & Hb)]; [contradiction|].
  change (lstrip slash (slash :: lstrip slash (dirname remote_path)))
    with (lstrip slash (lstrip slash (dirname remote_path))).
  rewrite H1 at 1. rewrite lstrip_fixed by assumption.
  rewrite <- H1, H2. apply rstrip_fixed. assumption.
Qed.

(** ** The plan *)

Lemma file_dirs_spec (remote_path P : str) :
  In P (file_dirs remote_path) <->
  dir_prefix P (remote_directory remote_path).
Proof.
  unfold file_dirs, dir_prefix, is_root, proper_ancestor.
  set (x := lstrip slash (dirname remote_path)).
  assert (Hx : remote_directory remote_path = slash :: x) by reflexivity.
  destruct (remote_directory_shape remote_path)
    as [H|(a & r & b & r' & H1 & Ha & H2 & Hb)]; fold x in H || fold x in H1.
  - rewrite Hx, H. simpl. split; [tauto|].
    intros (Hr & [->|(rest & He)]); [tauto|].
    destruct P as [|p [|q P]]; try tauto; discriminate.
  - assert (Hs : strip slash (remote_directory remote_path) = x).
    { apply strip_remote_directory. fold x. rewrite H1. discriminate. }
    rewrite Hs, Hx.
    replace (str_eqb (slash :: x) []) with false by reflexivity.
    replace (str_eqb (slash :: x) [slash]) with false.
    2:{ symmetry. rewrite H1. unfold str_eqb.
        destruct (list_eq_dec ascii_dec (slash :: a :: r) [slash]);
          [discriminate|reflexivity]. }
    simpl negb. simpl andb. rewrite in_map_iff. split.
    + intros (i & <- & Hi). apply in_seq in Hi.
      destruct (@join_firstn_split slash x i ltac:(lia)) as [He|(rest & He)].
      * split; [|left; f_equal; exact He].
        intros [Hc|Hc]; [discriminate|].
        injection Hc as Hc. rewrite He, H1 in Hc. discriminate.
      * split; [|right; exists rest; simpl; f_equal; exact He].
        intros [Hc|Hc]; [discriminate|].
        injection Hc as Hc. rewrite Hc in He. simpl in He.
        rewrite H1 in He. injection He as He _. congruence.
    + intros (Hr & [->|(rest & He)]).
      * exists (length (split slash x)).
        rewrite firstn_all, join_split. split; [reflexivity|].
        apply in_seq. pose proof (split_length slash x). lia.
      * destruct P as [|p P]; [tauto|].
        simpl in He. injection He as <- He.
        destruct (split_firstn_cut slash P rest) as (i & Hi & Hj).
        rewrite <- He in Hi, Hj.
        exists i. split; [f_equal; exact Hj|apply in_seq; lia].
Qed.

Section Sorted.

Variable key : str -> nat.

Lemma insert_by_perm (x : str) (l : list str) :
  Permutation (insert_by key x l) (x :: l).
Proof.
  induction l as [|y r IH]; simpl; [reflexivity|].
  destruct (key x <=? key y); [reflexivity|].
  rewrite IH. apply perm_swap.
Qed.

Lemma sorted_perm (l : list str) : Permutation (sorted key l) l.
Proof.
  induction l as [|x r IH]; simpl; [reflexivity|].
  rewrite insert_by_perm. constructor. exact IH.
Qed.

Lemma insert_by_sorted (x : str) (l : list str) :
  StronglySorted (key_le key) l -> StronglySorted (key_le key) (insert_by key x l).
Proof.
  induction 1 as [|y r Hs IH Hall]; simpl.
  - repeat constructor.
  - destruct (Nat.leb_spec (key x) (key y)) as [Hle|Hgt].
    + constructor; [constructor; assumption|].
      constructor; [exact Hle|].
      eapply Forall_impl; [|exact Hall].
      unfold key_le. intros; lia.
    + constructor; [exact IH|].
      eapply Permutation_Forall;
        [symmetry; apply insert_by_perm|].
      constructor; [unfold key_le; lia|exact Hall].
Qed.

Lemma sorted_sorted (l : list str) : StronglySorted (key_le key) (sorted key l).
Proof.
  induction l as [|x r IH]; simpl; [constructor|].
  apply insert_by_sorted. exact IH.
Qed.

Lemma sorted_nth_le (l : list str) (i j : nat) (a b : str) :
  StronglySorted (key_le key) l -> i < j ->
  nth_error l i = Some a -> nth_error l j = Some b -> key a <= key b.
Proof.
  intros Hs. revert i j. induction Hs as [|y r Hs IH Hall]; intros i j Hij Hi Hj.
  - destruct i; discriminate.
  - destruct j as [|j]; [lia|]. simpl in Hj.
    destruct i as [|i].
    + simpl in Hi. injection Hi as ->.
      rewrite Forall_forall in Hall. apply Hall.
      eapply nth_error_In. exact Hj.
    + simpl in Hi. apply (IH i j); [lia|assumption|assumption].
Qed.

End Sorted.

Lemma count_descendant (P rest : str) :
  count slash (P ++ slash :: rest) = S (count slash P + count slash rest).
Proof.
  unfold count. rewrite count_occ_app. simpl.
  destruct (ascii_dec slash slash); [lia|congruence].
Qed.

Lemma DirectoryPlan_perm (set_iter : list str -> list str)
    (files : list (str * str)) :
  Permutation (DirectoryPlan set_iter files) (set_iter (dirs_added files)).
Proof. apply sorted_perm. Qed.

Lemma dirs_added_spec (files : list (str * str)) (P : str) :
  In P (dirs_added files) <->
  exists local remote,
    In (local, remote) files /\ dir_prefix P (remote_directory remote).
Proof.
  unfold dirs_added. rewrite in_flat_map. split.
  - intros ([local remote] & Hin & HP). exists local, remote.
    split; [exact Hin|]. apply file_dirs_spec. exact HP.
  - intros (local & remote & Hin & HP). exists (local, remote).
    split; [exact Hin|]. apply file_dirs_spec. exact HP.
Qed.


Example plan_scenario :
  DirectoryPlan (fun l => rev (insertion_order l))
    [(lit "upload/cfg/a.txt", lit "cfg/a.txt");
     (lit "upload/cfg/sub/b.txt", lit "cfg/sub/b.txt");
     (lit "upload/top.txt", lit "top.txt")]
  = [lit "/cfg"; lit "/cfg/sub"].
Proof. vm_compute. reflexivity. Qed.

Lemma insertion_order_ok : set_iteration insertion_order.
Proof.
  intros adds. unfold insertion_order. split.
  - apply NoDup_nodup.
  - intros x. apply nodup_In.
Qed.



(** In a list sorted by the number of slashes, a path stands before every
    path below it. *)
Lemma ancestor_index_lt (l : list str) (i j : nat) (P rest : str) :
  StronglySorted (key_le (count slash)) l ->
  nth_error l i = Some P ->
  nth_error l j = Some (P ++ slash :: rest) ->
  i < j.
Proof.
  intros Hs Hi Hj.
  destruct (Nat.lt_trichotomy i j) as [Hlt|[->|Hgt]]; [exact Hlt| |].
  - rewrite Hi in Hj. injection Hj as Hj.
    apply (f_equal (@length ascii)) in Hj.
    rewrite length_app in Hj. simpl in Hj. lia.
  - pose proof (sorted_nth_le Hs Hgt Hj Hi) as Hle.
    rewrite count_descendant in Hle. lia.
Qed.

Lemma plan_In (set_iter : list str -> list str) (files : list (str * str))
    (P : str) :
  set_iteration set_iter ->
  In P (DirectoryPlan set_iter files) <->
  exists local remote,
    In (local, remote) files /\ dir_prefix P (remote_directory remote).
Proof.
  intros Hset. rewrite <- dirs_added_spec.
  rewrite <- (proj2 (Hset (dirs_added files)) P).
  split; apply Permutation_in;
    [apply DirectoryPlan_perm|symmetry; apply DirectoryPlan_perm].
Qed.

(** The invariant of a plan: whatever lies above a path of the plan, the
    root apart, is in the plan before it. *)
Lemma plan_ancestors_precede (set_iter : list str -> list str)
    (files : list (str * str)) (j : nat) (P Q : str) :
  set_iteration set_iter ->
  nth_error (DirectoryPlan set_iter files) j = Some Q ->
  proper_ancestor P Q -> ~ is_root P ->
  exists i, i < j /\ nth_error (DirectoryPlan set_iter files) i = Some P.
Proof.
  intros Hset Hj [rest ->] Hroot.
  assert (HP : In P (DirectoryPlan set_iter files)).
  { apply plan_In; [exact Hset|].
    apply nth_error_In in Hj. apply (plan_In files _ Hset) in Hj.
    destruct Hj as (local & remote & Hf & _ & Hd).
    exists local, remote. split; [exact Hf|]. split; [exact Hroot|]. right.
    destruct Hd as [<-|[rest' ->]]; [exists rest; reflexivity|].
    exists (rest ++ slash :: rest'). rewrite <- app_assoc. reflexivity. }
  apply In_nth_error in HP. destruct HP as [i Hi].
  exists i. split; [|exact Hi].
  eapply ancestor_index_lt; [apply sorted_sorted|exact Hi|exact Hj].
Qed.

(** C4. In the plan of any file list, a path stands strictly before every
    path that lies below it: the sort by the number of slashes puts each
    parent before its children. *)
Theorem plan_topological_order (set_iter : list str -> list str)
    (files : list (str * str)) (i j : nat) (P Q : str) :
  nth_error (DirectoryPlan set_iter files) i = Some P ->
  nth_error (DirectoryPlan set_iter files) j = Some Q ->
  proper_ancestor P Q ->
  i < j.
Proof.
  intros Hi Hj [rest ->].
  eapply ancestor_index_lt; [apply sorted_sorted|exact Hi|exact Hj].
Qed.

Lemma plan_topological_order_witness : 0 < 1.
Proof.
  refine (@plan_topological_order (fun l => rev (insertion_order l))
            [(lit "upload/cfg/a.txt", lit "cfg/a.txt");
             (lit "upload/cfg/sub/b.txt", lit "cfg/sub/b.txt")]
            0 1 (lit "/cfg") (lit "/cfg/sub") _ _ _).
  - reflexivity.
  - reflexivity.
  - exists (lit "sub"). reflexivity.
Defined.

(** ** The scanner *)

Section Scanner.

Variable sys_platform : str.
Variable GetFileAttributesW : str -> Z.
Variable getcwd : str.
Variable cwd_entries : list entry.

Abbreviation hidden := (is_hidden sys_platform GetFileAttributesW).
Abbreviation path_join := (os_path_join sys_platform).
Abbreviation reached :=
  (unhidden_dir sys_platform GetFileAttributesW cwd_entries).

(** Where the last separator sits when nothing follows it but [n]. *)
Lemma rfind_succ_cut (c : ascii) (a n : str) :
  ~ In c n -> rfind_succ c (a ++ c :: n) = S (length a).
Proof.
  intros Hn.
  assert (H0 : rfind_succ c n = 0).
  { induction n as [|x r IH]; [reflexivity|].
    simpl. rewrite IH by (intros H; apply Hn; right; exact H).
    destruct (Ascii.eqb_spec x c) as [->|_]; [|reflexivity].
    exfalso. apply Hn. left. reflexivity. }
  induction a as [|x a IH]; simpl.
  - rewrite H0, Ascii.eqb_refl. reflexivity.
  - rewrite IH. reflexivity.
Qed.

Lemma basename_cut (a n : str) :
  ~ In slash n -> basename (a ++ slash :: n) = n.
Proof.
  intros Hn. unfold basename. rewrite rfind_succ_cut by exact Hn.
  induction a as [|x a IH]; [reflexivity|exact IH].
Qed.

(** On a host that is not Windows, an entry of a directory is hidden when
    its name begins with a dot. *)
Lemma posix_hidden_by_name (root entry_name : str) :
  on_windows sys_platform = false ->
  root <> [] -> ~ In slash entry_name ->
  hidden (path_join root entry_name) = startswith [dot] entry_name.
Proof.
  intros Hw Hroot Hn. unfold is_hidden, os_path_join, sep. rewrite Hw.
  assert (Hs : startswith [slash] entry_name = false).
  { destruct entry_name as [|x r]; [reflexivity|]. cbn [startswith].
    destruct (Ascii.eqb_spec slash x) as [<-|_]; [|reflexivity].
    exfalso. apply Hn. left. reflexivity. }
  rewrite Hs. destruct root as [|x r]; [congruence|].
  destruct (Ascii.eqb_spec (last (x :: r) slash) slash) as [Hl|_].
  - rewrite (app_removelast_last slash (l := x :: r)) by discriminate.
    rewrite Hl, <- app_assoc. cbn [app].
    rewrite basename_cut by exact Hn. reflexivity.
  - rewrite basename_cut by exact Hn. reflexivity.
Qed.

Lemma walk_unhidden (e : entry) :
  forall top root dirs files,
    reached top e ->
    In (root, dirs, files) (walk sys_platform GetFileAttributesW top e) ->
    exists n children,
      reached root (Dir n children) /\
      dirs = filter (fun d => negb (hidden (path_join root d)))
                    (dir_names children) /\
      files = file_names children.
Proof.
  induction e as [n|n children IH] using entry_nested_ind;
    intros top root dirs files Htop Hin.
  - destruct Hin.
  - simpl in Hin. destruct Hin as [Heq|Hin].
    + injection Heq as <- <- <-. exists n, children. tauto.
    + apply in_flat_map in Hin. destruct Hin as (sub & Hsub & Hin).
      destruct sub as [f|d sub]; [destruct Hin|].
      destruct (hidden (path_join top d)) eqn:Hh; [destruct Hin|].
      rewrite Forall_forall in IH.
      apply (IH _ Hsub (path_join top d)); [|exact Hin].
      eapply unhidden_sub; eassumption.
Qed.

Lemma find_entry_In (nm : str) (es : list entry) (e : entry) :
  find_entry nm es = Some e -> In e es.
Proof. intros H. apply find_some in H. tauto. Qed.

Lemma file_names_In (f : str) (es : list entry) :
  In f (file_names es) <-> In (File f) es.
Proof.
  unfold file_names. rewrite in_flat_map. split.
  - intros ([n|n c] & Hin & Hf); simpl in Hf; [|tauto].
    destruct Hf as [<-|[]]. exact Hin.
  - intros Hin. exists (File f). split; [exact Hin|left; reflexivity].
Qed.

(** C5. Every directory that the walk visits is reached from the scan
    root through directories that are not hidden, and the directories it
    keeps for descending are not hidden; every file in the scanner's output
    is not hidden and lies in such a directory.  So nothing hidden is
    emitted, and nothing below a hidden directory is visited or emitted. *)
Theorem hidden_never_scanned :
  (forall root dirs files,
      In (root, dirs, files)
         (os_walk sys_platform GetFileAttributesW cwd_entries) ->
      (exists n children,
          reached root (Dir n children) /\
          files = file_names children) /\
      (forall d, In d dirs -> hidden (path_join root d) = false))
  /\
  (forall local_path remote_path,
      In (local_path, remote_path)
         (build_files sys_platform GetFileAttributesW getcwd cwd_entries) ->
      hidden local_path = false /\
      exists root n children file,
        reached root (Dir n children) /\
        In (File file) children /\
        local_path = path_join root file).
Proof.
  assert (Hwalk : forall root dirs files,
    In (root, dirs, files)
       (os_walk sys_platform GetFileAttributesW cwd_entries) ->
    exists n children,
      reached root (Dir n children) /\
      dirs = filter (fun d => negb (hidden (path_join root d)))
                    (dir_names children) /\
      files = file_names children).
  { intros root dirs files Hin. unfold os_walk in Hin.
    destruct (find_entry (lit "upload") cwd_entries) as [e|] eqn:E;
      [|destruct Hin].
    eapply walk_unhidden; [|exact Hin]. constructor. exact E. }
  split.
  - intros root dirs files Hin.
    destruct (Hwalk _ _ _ Hin) as (n & children & Hu & Hd & Hf).
    split; [exists n, children; tauto|].
    intros d Hdin. rewrite Hd in Hdin. apply filter_In in Hdin.
    destruct Hdin as [_ Hh]. apply negb_true_iff in Hh. exact Hh.
  - intros local_path remote_path Hin. unfold build_files in Hin.
    apply in_flat_map in Hin.
    destruct Hin as ([[root dirs] files] & Hin & Hf).
    apply in_flat_map in Hf. destruct Hf as (file & Hfile & Hs).
    unfold scan_file in Hs.
    destruct (hidden (path_join root file)) eqn:Hh; [destruct Hs|].
    destruct Hs as [Heq|[]]. injection Heq as <- _.
    split; [exact Hh|].
    destruct (Hwalk _ _ _ Hin) as (n & children & Hu & _ & ->).
    exists root, n, children, file.
    split; [exact Hu|]. split; [|reflexivity].
    apply file_names_In. exact Hfile.
Qed.

End Scanner.

Example scan_scenario :
  build_files (lit "linux") (fun _ => 0%Z) (lit "/home/sync") scenario_tree
  = [(lit "upload/cfg/a.txt", lit "cfg/a.txt");
     (lit "upload/cfg/sub/b.txt", lit "cfg/sub/b.txt")].
Proof. vm_compute. reflexivity. Qed.

Example scan_scenario_windows :
  build_files (lit "win32")
    (fun p => if str_eqb p (lit "upload\cfg\sub") then 18%Z else 32%Z)
    (lit "C:\sync") scenario_tree
  = [(lit "upload\cfg\a.txt", lit "cfg/a.txt");
     (lit "upload\.hidden\c.txt", lit ".hidden/c.txt")].
Proof. vm_compute. reflexivity. Qed.

Lemma hidden_never_scanned_witness :
  is_hidden (lit "linux") (fun _ => 0%Z) (lit "upload/cfg/sub/b.txt") = false.
Proof.
  refine (proj1 (proj2 (@hidden_never_scanned (lit "linux") (fun _ => 0%Z)
                          (lit "/home/sync") scenario_tree)
                   (lit "upload/cfg/sub/b.txt") (lit "cfg/sub/b.txt") _)).
  right. left. reflexivity.
Defined.

(** ** Folder materialization *)

Ltac run_step :=
  unfold bind, request, print, emit, ret, raise; cbn [fst snd world trace].

Section Materializer.

Variable W : Type.
Variable panel : Panel W.
Variable cfg : Config.

Lemma folder_exists_returns (server_id path directory : str) (st : state W) :
  exists found evs,
    folder_exists panel server_id path directory st
    = (Ok found,
       {| world := snd (get_files_list panel server_id (str_or path [slash])
                          (world st));
          trace := trace st
                   ++ GetFilesList server_id (str_or path [slash]) :: evs |})
    /\ (found = true <->
        finds_folder (fst (get_files_list panel server_id
                             (str_or path [slash]) (world st))) directory)
    /\ (check_fails (fst (get_files_list panel server_id
                            (str_or path [slash]) (world st))) ->
        found = false /\ exists l, evs = [Stdout l]).
Proof.
  unfold folder_exists, finds_folder, check_fails. run_step.
  destruct (get_files_list panel server_id (str_or path [slash]) (world st))
    as [r w]. cbn [fst snd].
  destruct r as [e|status body].
  - exists false, [Stdout (ErrorCheckingFolder path e)]. run_step.
    rewrite <- app_assoc. split; [reflexivity|]. split.
    + split; [discriminate|]. intros (data & H & _). discriminate.
    + intros _. split; [reflexivity|]. eexists. reflexivity.
  - destruct (Z.eqb_spec status 200) as [->|Hne].
    + destruct body as [data|e].
      * exists (existsb (fun it => str_eqb (item_name it) directory
                                   && negb (is_file it)) data), [].
        split; [reflexivity|]. split.
        -- rewrite existsb_exists. split.
           ++ intros (it & Hin & Hb). apply andb_true_iff in Hb.
              destruct Hb as [Hn Hf]. apply str_eqb_eq in Hn.
              apply negb_true_iff in Hf.
              exists data. split; [reflexivity|]. exists it. tauto.
           ++ intros (data' & Heq & it & Hin & Hn & Hf).
              injection Heq as <-. exists it. split; [exact Hin|].
              apply andb_true_iff. split;
                [apply str_eqb_eq; exact Hn|rewrite Hf; reflexivity].
        -- intros [H|[e H]]; [congruence|discriminate].
      * exists false, [Stdout (ErrorCheckingFolder path e)]. run_step.
        rewrite <- app_assoc. split; [reflexivity|]. split.
        -- split; [discriminate|]. intros (data & H & _). discriminate.
        -- intros _. split; [reflexivity|]. eexists. reflexivity.
    + exists false, [Stdout (FailedToList path status)]. run_step.
      rewrite <- app_assoc. split; [reflexivity|]. split.
      * split; [discriminate|]. intros (data & H & _).
        injection H as H _. contradiction.
      * intros _. split; [reflexivity|]. eexists. reflexivity.
Qed.

(** What [create_folder] does once [folder_exists] has answered. *)
Lemma create_folder_after_check (id name root : str) (st st1 : state W)
    (found : bool) :
  folder_exists panel id root name st = (Ok found, st1) ->
  create_folder panel cfg id name root st
  = if found then
      (Ok true,
       {| world := world st1;
          trace := trace st1
                   ++ (if DEBUG cfg then [Stdout (FolderAlreadyExists root name)]
                       else []) |})
    else
      match post_create_folder panel id name (str_or root [slash]) (world st1)
      with
      | (Raised e, w) =>
          (Raise e,
           {| world := w;
              trace := trace st1
                       ++ [PostCreateFolder id name (str_or root [slash])] |})
      | (Response status text, w) =>
          (Ok ((status =? 204)%Z || (status =? 400)%Z),
           {| world := w;
              trace := trace st1
                       ++ PostCreateFolder id name (str_or root [slash])
                          :: (if (status =? 204)%Z
                              then [Stdout (CreatedFolder root name)]
                              else if (status =? 400)%Z then []
                              else [Stdout (FailedToCreateFolder name root
                                             status text)]) |})
      end.
Proof.
  intros Hfe. unfold create_folder. unfold bind at 1. rewrite Hfe.
  destruct found.
  - destruct (DEBUG cfg); run_step; destruct st1; cbn [world trace];
      [reflexivity|rewrite app_nil_r; reflexivity].
  - run_step.
    destruct (post_create_folder panel id name (str_or root [slash])
                (world st1)) as [[e|status text] w]; [reflexivity|].
    destruct (status =? 204)%Z; run_step;
      [rewrite <- app_assoc; reflexivity|].
    destruct (status =? 400)%Z; run_step;
      [reflexivity|rewrite <- app_assoc; reflexivity].
Qed.

(** C7. [folder_exists] never raises.  When the listing request raises,
    answers with another status than 200 or cannot be read, it prints a
    line and returns false, and [create_folder] goes on to the create
    request. *)
Theorem existence_check_failure_tolerated (id name root : str)
    (st : state W) :
  (exists found st',
      folder_exists panel id root name st = (Ok found, st')) /\
  (check_fails (fst (get_files_list panel id (str_or root [slash])
                       (world st))) ->
   exists l,
     folder_exists panel id root name st
     = (Ok false,
        {| world := snd (get_files_list panel id (str_or root [slash])
                           (world st));
           trace := trace st
                    ++ [GetFilesList id (str_or root [slash]); Stdout l] |})
     /\ exists evs,
          trace (snd (create_folder panel cfg id name root st))
          = trace st
            ++ [GetFilesList id (str_or root [slash]); Stdout l;
                PostCreateFolder id name (str_or root [slash])]
            ++ evs).
Proof.
  destruct (folder_exists_returns id root name st)
    as (found & evs & Hfe & _ & Hfail).
  split; [eauto|].
  intros Hc. destruct (Hfail Hc) as [-> [l ->]]. exists l.
  split; [exact Hfe|].
  rewrite (create_folder_after_check _ _ _ _ Hfe). cbn [world trace].
  destruct (post_create_folder panel id name (str_or root [slash])
              (snd (get_files_list panel id (str_or root [slash]) (world st))))
    as [[e|status text] w]; cbn [snd trace]; rewrite <- app_assoc;
    eexists; cbn [app]; reflexivity.
Qed.

(** C6. [create_folder] returns true when the listing shows the folder,
    and otherwise when the create request answers 204 (created) or 400
    (already there); it returns false exactly when the listing does not show
    the folder and the create request answers with any other status.  A
    false makes [make_folder] raise, which ends the folder loop. *)
Theorem create_folder_outcome (id name root : str) (st : state W) :
  let listing := get_files_list panel id (str_or root [slash]) (world st) in
  let creation :=
    fst (post_create_folder panel id name (str_or root [slash])
           (snd listing)) in
  (finds_folder (fst listing) name ->
   fst (create_folder panel cfg id name root st) = Ok true) /\
  (~ finds_folder (fst listing) name ->
   forall status text,
     creation = Response status text ->
     (status = 204%Z \/ status = 400%Z ->
      fst (create_folder panel cfg id name root st) = Ok true) /\
     (status <> 204%Z -> status <> 400%Z ->
      fst (create_folder panel cfg id name root st) = Ok false)) /\
  (fst (create_folder panel cfg id name root st) = Ok false <->
   ~ finds_folder (fst listing) name /\
   exists status text,
     creation = Response status text /\
     status <> 204%Z /\ status <> 400%Z) /\
  (forall server path,
     id = Identifier server -> name = basename path ->
     root = str_or (dirname path) [slash] ->
     fst (create_folder panel cfg id name root st) = Ok false ->
     fst (make_folder panel cfg server path st)
     = Raise (failed_to_create root name (Name server))).
Proof.
  intros listing creation. subst listing creation.
  destruct (folder_exists_returns id root name st)
    as (found & evs & Hfe & Hfound & _).
  pose proof (create_folder_after_check _ _ _ _ Hfe) as Hcf.
  cbn [world trace] in Hcf.
  repeat split.
  - intros Hf. apply Hfound in Hf. subst found. rewrite Hcf. reflexivity.
  - intros [-> | ->]; rewrite Hcf.
    all: destruct found; [exfalso; apply H; apply Hfound; reflexivity|].
    all: destruct (post_create_folder panel id name (str_or root [slash]) _)
           as [r w]; cbn [fst] in H0; subst r; reflexivity.
  - intros H1 H2. rewrite Hcf.
    destruct found; [exfalso; apply H; apply Hfound; reflexivity|].
    destruct (post_create_folder panel id name (str_or root [slash]) _)
      as [r w]; cbn [fst] in H0; subst r. cbn [fst].
    destruct (Z.eqb_spec status 204); [contradiction|].
    destruct (Z.eqb_spec status 400); [contradiction|]. reflexivity.
  - rewrite Hcf in H. destruct found; [discriminate|].
    intros Hf. apply Hfound in Hf. discriminate.
  - rewrite Hcf in H. destruct found; [discriminate|].
    destruct (post_create_folder panel id name (str_or root [slash]) _)
      as [[e|status text] w]; [discriminate|].
    exists status, text. cbn [fst] in H |- *.
    split; [reflexivity|].
    destruct (Z.eqb_spec status 204); [discriminate|].
    destruct (Z.eqb_spec status 400); [discriminate|]. tauto.
  - intros (Hnf & status & text & Hc & H1 & H2). rewrite Hcf.
    destruct found; [exfalso; apply Hnf; apply Hfound; reflexivity|].
    destruct (post_create_folder panel id name (str_or root [slash]) _)
      as [r w]; cbn [fst] in Hc; subst r. cbn [fst].
    destruct (Z.eqb_spec status 204); [contradiction|].
    destruct (Z.eqb_spec status 400); [contradiction|]. reflexivity.
  - intros server path -> -> -> Hfalse.
    unfold make_folder. unfold bind at 1.
    destruct (create_folder panel cfg (Identifier server) (basename path)
                (str_or (dirname path) [slash]) st) as [[[|]|e] st'];
      cbn [fst] in Hfalse; try discriminate. reflexivity.
Qed.

End Materializer.

(** ** The upload pipeline *)

Section Uploads.

Variable W : Type.
Variable panel : Panel W.

Lemma printed_app (a b : list event) :
  printed (a ++ b) = printed a ++ printed b.
Proof. apply flat_map_app. Qed.

Lemma upload_requests_app (a b : list event) :
  upload_requests (a ++ b) = upload_requests a ++ upload_requests b.
Proof. apply flat_map_app. Qed.

(** [upload_file], run: what it returns and leaves for each course of its
    three calls. *)
Lemma upload_file_run (server_id local_path remote_path : str)
    (st : state W) :
  upload_file panel server_id local_path remote_path st
  = let directory := remote_directory remote_path in
    let asked := trace st ++ [GetFilesUpload server_id directory] in
    match get_files_upload panel server_id directory (world st) with
    | (Raised e, w) => (Raise e, {| world := w; trace := asked |})
    | (Response status (text, data), w) =>
        if negb (status =? 200)%Z then
          (Ok false,
           {| world := w;
              trace := asked ++ [Stdout (FailedToGetUploadURL remote_path
                                          status text)] |})
        else
          match data with
          | BadJson e => (Raise e, {| world := w; trace := asked |})
          | Json signed_url =>
              let opened := asked ++ [OpenFile local_path] in
              match open_rb panel local_path w with
              | (Some e, w1) => (Raise e, {| world := w1; trace := opened |})
              | (None, w1) =>
                  let sent :=
                    opened ++ [PostSignedUrl signed_url directory local_path]
                  in
                  match post_signed_url panel signed_url directory local_path
                          w1 with
                  | (Raised e, w2) =>
                      (Raise e, {| world := w2; trace := sent |})
                  | (Response upload_status upload_text, w2) =>
                      (Ok true,
                       {| world := w2;
                          trace :=
                            sent
                            ++ [Stdout
                                  (if (upload_status =? 200)%Z
                                      || (upload_status =? 204)%Z
                                   then Uploaded local_path remote_path
                                   else UploadFailed local_path remote_path
                                          upload_status upload_text)] |})
                  end
              end
          end
    end.
Proof.
  unfold upload_file. run_step.
  destruct (get_files_upload panel server_id (remote_directory remote_path)
              (world st)) as [[e|status [text data]] w]; [reflexivity|].
  destruct (negb (status =? 200)%Z); run_step; [reflexivity|].
  destruct data as [signed_url|e]; [|reflexivity]. run_step.
  destruct (open_rb panel local_path w) as [[e|] w1]; [reflexivity|].
  run_step.
  destruct (post_signed_url panel signed_url (remote_directory remote_path)
              local_path w1) as [[e|upload_status upload_text] w2];
    [reflexivity|].
  destruct ((upload_status =? 200)%Z || (upload_status =? 204)%Z);
    reflexivity.
Qed.

(** C10. When the destination request answers 200 with an address and the
    file opens, [upload_file] returns true whatever status the transfer
    answers with, a failing one being printed only; it returns false
    exactly when the destination request answers with another status than
    200. *)
Theorem upload_file_result (server_id local_path remote_path : str)
    (st : state W) :
  let directory := remote_directory remote_path in
  let destination := get_files_upload panel server_id directory (world st) in
  (forall text signed_url upload_status upload_text,
      fst destination = Response 200 (text, Json signed_url) ->
      fst (open_rb panel local_path (snd destination)) = None ->
      fst (post_signed_url panel signed_url directory local_path
             (snd (open_rb panel local_path (snd destination))))
      = Response upload_status upload_text ->
      fst (upload_file panel server_id local_path remote_path st) = Ok true /\
      (upload_status <> 200%Z -> upload_status <> 204%Z ->
       printed (trace (snd (upload_file panel server_id local_path
                              remote_path st)))
       = printed (trace st)
         ++ [UploadFailed local_path remote_path upload_status upload_text]))
  /\
  (fst (upload_file panel server_id local_path remote_path st) = Ok false <->
   exists status text data,
     fst destination = Response status (text, data) /\ status <> 200%Z).
Proof.
  intros directory destination. subst directory destination.
  rewrite upload_file_run. cbv zeta.
  destruct (get_files_upload panel server_id (remote_directory remote_path)
              (world st)) as [[e|status [text data]] w]; cbn [fst snd].
  - split; [intros; discriminate|].
    split; [discriminate|]. intros (s & t & d & H & _). discriminate.
  - destruct (Z.eqb_spec status 200) as [->|Hne]; cbn [negb].
    + split.
      * intros text' signed_url upload_status upload_text Hd Ho Hu.
        injection Hd as <- ->.
        destruct (open_rb panel local_path w) as [o w1].
        cbn [fst snd] in *. subst o.
        destruct (post_signed_url panel signed_url
                    (remote_directory remote_path) local_path w1) as [u w2].
        cbn [fst] in Hu. subst u. cbn [fst snd trace].
        split; [reflexivity|].
        intros H1 H2.
        destruct (Z.eqb_spec upload_status 200); [contradiction|].
        destruct (Z.eqb_spec upload_status 204); [contradiction|].
        rewrite !printed_app. cbn. rewrite !app_nil_r. reflexivity.
      * split.
        -- intros H. exfalso. destruct data as [url|e]; [|discriminate].
           destruct (open_rb panel local_path w) as [[e|] w1];
             [discriminate|].
           destruct (post_signed_url panel url (remote_directory remote_path)
                       local_path w1) as [[e|us ut] w2]; discriminate.
        -- intros (s & t & d & H & Hs). injection H as <- _ _. contradiction.
    + split.
      * intros ? ? ? ? H. injection H as H _ _. contradiction.
      * split; [|reflexivity].
        intros _. exists status, text, data. tauto.
Qed.

(** One upload against a panel that answers with statuses: it returns, asks
    for one destination and prints one line, about its file. *)
Lemma upload_file_returns (server_id local_path remote_path : str)
    (st : state W) :
  answers_with_status panel ->
  exists done st' evs l,
    upload_file panel server_id local_path remote_path st = (Ok done, st') /\
    trace st' = trace st ++ evs /\
    upload_requests evs = [(server_id, remote_directory remote_path)] /\
    printed evs = [l] /\
    about (local_path, remote_path) l.
Proof.
  intros (Hget & Hopen & Hpost).
  rewrite upload_file_run. cbv zeta.
  destruct (Hget server_id (remote_directory remote_path) (world st))
    as (status & text & data & Hg & Hurl).
  destruct (get_files_upload panel server_id (remote_directory remote_path)
              (world st)) as [r w]. cbn [fst] in Hg. subst r.
  destruct (Z.eqb_spec status 200) as [->|Hne]; cbn [negb].
  - destruct (Hurl eq_refl) as [url ->].
    pose proof (Hopen local_path w) as Ho.
    destruct (open_rb panel local_path w) as [o w1]. cbn [fst] in Ho. subst o.
    destruct (Hpost url (remote_directory remote_path) local_path w1)
      as (us & ut & Hp).
    destruct (post_signed_url panel url (remote_directory remote_path)
                local_path w1) as [u w2]. cbn [fst] in Hp. subst u.
    do 3 eexists; eexists. split; [reflexivity|]. cbn [trace].
    rewrite <- !app_assoc. cbn [app].
    split; [reflexivity|]. split; [reflexivity|]. split; [reflexivity|].
    destruct ((us =? 200)%Z || (us =? 204)%Z); cbn; tauto.
  - do 3 eexists; eexists. split; [reflexivity|]. cbn [trace].
    rewrite <- !app_assoc. cbn [app].
    split; [reflexivity|]. split; [reflexivity|].
    split; [reflexivity|]. reflexivity.
Qed.

(** One upload against a panel that answers with statuses is a whole
    attempt. *)
Lemma upload_file_attempt (server_id local_path remote_path : str)
    (st : state W) :
  answers_with_status panel ->
  exists done evs w',
    upload_file panel server_id local_path remote_path st
    = (Ok done, {| world := w'; trace := trace st ++ evs |}) /\
    attempt panel server_id local_path remote_path (world st) evs w'.
Proof.
  intros (Hget & Hopen & Hpost).
  rewrite upload_file_run. cbv zeta.
  destruct (Hget server_id (remote_directory remote_path) (world st))
    as (status & text & data & Hg & Hurl).
  pose proof (@attempt_refused W panel server_id local_path remote_path
                (world st)) as Hrefused.
  pose proof (@attempt_transfer W panel server_id local_path remote_path
                (world st)) as Htransfer.
  destruct (get_files_upload panel server_id (remote_directory remote_path)
              (world st)) as [r w]. cbn [fst snd] in *. subst r.
  destruct (Z.eqb_spec status 200) as [->|Hne]; cbn [negb].
  - destruct (Hurl eq_refl) as [url ->].
    specialize (Htransfer text url).
    pose proof (Hopen local_path w) as Ho.
    destruct (open_rb panel local_path w) as [o w1].
    cbn [fst snd] in *. subst o.
    destruct (Hpost url (remote_directory remote_path) local_path w1)
      as (us & ut & Hp).
    specialize (Htransfer us ut).
    destruct (post_signed_url panel url (remote_directory remote_path)
                local_path w1) as [u w2]. cbn [fst snd] in *. subst u.
    do 3 eexists. split.
    + rewrite <- !app_assoc. cbn [app]. reflexivity.
    + apply Htransfer; reflexivity.
  - do 3 eexists. split.
    + rewrite <- !app_assoc. cbn [app]. reflexivity.
    + apply (Hrefused status text data); [reflexivity|exact Hne].
Qed.

Lemma attempt_events (server_id local_path remote_path : str) (w w' : W)
    (evs : list event) :
  attempt panel server_id local_path remote_path w evs w' ->
  upload_requests evs = [(server_id, remote_directory remote_path)] /\
  exists l, printed evs = [l] /\ about (local_path, remote_path) l.
Proof.
  intros [w0 status text data _ _|w0 text url us ut _ _ _].
  - split; [reflexivity|]. eexists. split; [reflexivity|]. reflexivity.
  - split; [reflexivity|]. eexists. split; [reflexivity|].
    destruct ((us =? 200)%Z || (us =? 204)%Z); cbn; tauto.
Qed.

(** Each file of the list has its whole attempt in the events. *)
Lemma attempts_each (server_id : str) (files : list (str * str)) (w w' : W)
    (evs : list event) :
  attempts panel server_id files w evs w' ->
  forall local_path remote_path,
    In (local_path, remote_path) files ->
    exists w0 chunk w1 before after,
      evs = before ++ chunk ++ after /\
      attempt panel server_id local_path remote_path w0 chunk w1.
Proof.
  induction 1 as [w|l r rest w w1 w2 evs1 evs2 Hat Hrest IH];
    intros local_path remote_path Hin; [destruct Hin|].
  destruct Hin as [Heq|Hin].
  - apply pair_equal_spec in Heq. destruct Heq as [<- <-].
    exists w, evs1, w1, [], evs2. split; [reflexivity|exact Hat].
  - destruct (IH _ _ Hin) as (w0 & chunk & w3 & before & after & -> & Hc).
    exists w0, chunk, w3, (evs1 ++ before), after.
    split; [rewrite <- app_assoc; reflexivity|exact Hc].
Qed.

(** C9. Against a panel that answers every request with a status, good or
    bad, the upload loop of a server returns normally and what it has done is
    one whole attempt per file, in the order of the list, each decided by
    the answers to that file's own calls alone: the destination is asked
    for; when it is refused the refusal is printed, and when it is granted
    the file is opened and sent to the address given, and the outcome of
    the transfer is printed, a failing status being printed for that file
    only.  So every file has its destination asked for and one line about
    it, and no failure, of a destination or of a transfer, keeps another
    file from being opened and sent. *)
Theorem upload_independence (server : Server) (files : list (str * str))
    (st : state W) :
  answers_with_status panel ->
  exists st' evs,
    upload_files panel server files st = (Ok tt, st') /\
    trace st' = trace st ++ evs /\
    upload_requests evs
    = map (fun f => (Identifier server, remote_directory (snd f))) files /\
    Forall2 about files (printed evs) /\
    attempts panel (Identifier server) files (world st) evs (world st') /\
    (forall local_path remote_path,
        In (local_path, remote_path) files ->
        exists w0 chunk w1 before after,
          evs = before ++ chunk ++ after /\
          attempt panel (Identifier server) local_path remote_path
            w0 chunk w1).
Proof.
  intros Hp.
  assert (Hloop : exists st' evs,
             upload_files panel server files st = (Ok tt, st') /\
             trace st' = trace st ++ evs /\
             upload_requests evs
             = map (fun f => (Identifier server, remote_directory (snd f)))
                   files /\
             Forall2 about files (printed evs) /\
             attempts panel (Identifier server) files (world st) evs
               (world st')).
  { revert st. induction files as [|[local_path remote_path] r IH];
      intros st.
    - exists st, []. cbn. rewrite app_nil_r.
      repeat split; constructor.
    - destruct (upload_file_attempt (Identifier server) local_path
                  remote_path st Hp) as (done & evs1 & w1 & Hu & Hat).
      destruct (attempt_events Hat) as (Hr & l & Hl & Ha).
      destruct (IH {| world := w1; trace := trace st ++ evs1 |})
        as (st2 & evs2 & Hf & Ht2 & Hr2 & Hl2 & Hats).
      exists st2, (evs1 ++ evs2).
      unfold upload_files in *. cbn [for_each fst snd].
      unfold bind at 1. unfold bind at 1. rewrite Hu. cbn [ret].
      split; [exact Hf|].
      split; [rewrite Ht2; cbn [trace]; rewrite app_assoc; reflexivity|].
      rewrite upload_requests_app, printed_app, Hr, Hl, Hr2.
      split; [reflexivity|]. split; [constructor; assumption|].
      econstructor; [exact Hat|exact Hats]. }
  destruct Hloop as (st' & evs & Hrun & Ht & Hr & Hl & Hats).
  exists st', evs. repeat (split; [assumption|]).
  exact (attempts_each Hats).
Qed.

End Uploads.

Example healthy_run :
  run_main (healthy [alpha]) scenario_tree
  = (Ok tt,
     {| world := tt;
        trace :=
          [GetClient;
           Stdout (EnsuringFolderStructure (lit "Alpha"));
           GetFilesList (lit "a1") (lit "/");
           PostCreateFolder (lit "a1") (lit "cfg") (lit "/");
           Stdout (CreatedFolder (lit "/") (lit "cfg"));
           GetFilesList (lit "a1") (lit "/cfg");
           PostCreateFolder (lit "a1") (lit "sub") (lit "/cfg");
           Stdout (CreatedFolder (lit "/cfg") (lit "sub"));
           Stdout (StartingFileUpload (lit "Alpha"));
           GetFilesUpload (lit "a1") (lit "/cfg");
           OpenFile (lit "upload/cfg/a.txt");
           PostSignedUrl (lit "https://node/up") (lit "/cfg")
             (lit "upload/cfg/a.txt");
           Stdout (Uploaded (lit "upload/cfg/a.txt") (lit "cfg/a.txt"));
           GetFilesUpload (lit "a1") (lit "/cfg/sub");
           OpenFile (lit "upload/cfg/sub/b.txt");
           PostSignedUrl (lit "https://node/up") (lit "/cfg/sub")
             (lit "upload/cfg/sub/b.txt");
           Stdout (Uploaded (lit "upload/cfg/sub/b.txt")
                    (lit "cfg/sub/b.txt"))] |}).
Proof. vm_compute. reflexivity. Qed.

(** ** The loop over the servers *)

Section Orchestrator.

Variable W : Type.
Variable panel : Panel W.
Variable cfg : Config.
Variable set_iter : list str -> list str.

Lemma for_each_app (A : Type) (l1 l2 : list A) (body : A -> M W unit)
    (st : state W) :
  for_each (l1 ++ l2) body st
  = match for_each l1 body st with
    | (Ok _, st') => for_each l2 body st'
    | (Raise e, st') => (Raise e, st')
    end.
Proof.
  revert st. induction l1 as [|x r IH]; intros st; [reflexivity|].
  cbn [app for_each]. unfold bind.
  destruct (body x st) as [[[]|e] st1]; [apply IH|reflexivity].
Qed.

(** C1, as the code has it.  When [create_folder] returns false for a
    directory of a server's plan, the loop over the servers raises there,
    whatever servers follow: the run ends in the state that the failed
    [create_folder] leaves, so the rest of the plan and the uploads of that
    server are skipped and no later server is visited.  The servers before
    it had their whole turn. *)
Theorem fatal_folder_failure_aborts_run (files : list (str * str))
    (before after : list Server) (server : Server)
    (made rest : list str) (path : str) (st st1 st2 st3 : state W) :
  run_servers panel cfg set_iter files before st = (Ok tt, st1) ->
  DirectoryPlan set_iter files = made ++ path :: rest ->
  for_each made (make_folder panel cfg server)
    (snd (print (EnsuringFolderStructure (Name server)) st1))
  = (Ok tt, st2) ->
  create_folder panel cfg (Identifier server) (basename path)
    (str_or (dirname path) [slash]) st2
  = (Ok false, st3) ->
  run_servers panel cfg set_iter files (before ++ server :: after) st
  = (Raise (failed_to_create (str_or (dirname path) [slash]) (basename path)
              (Name server)),
     st3).
Proof.
  intros Hbefore Hplan Hmade Hfail.
  unfold run_servers in *. rewrite for_each_app, Hbefore.
  cbn [for_each]. unfold bind at 1.
  assert (Hturn : server_turn panel cfg set_iter files server st1
                  = (Raise (failed_to_create (str_or (dirname path) [slash])
                              (basename path) (Name server)), st3)).
  { unfold server_turn. unfold bind at 1. cbn [print emit].
    cbn [print emit snd] in Hmade.
    unfold bind at 1. unfold make_folders. rewrite Hplan, for_each_app, Hmade.
    cbn [for_each]. unfold bind at 1. unfold make_folder at 1.
    unfold bind at 1. rewrite Hfail. reflexivity. }
  rewrite Hturn. reflexivity.
Qed.

End Orchestrator.

Lemma fatal_folder_failure_aborts_run_witness :
  fst (run_servers (stateless alpha_refuses) module_config insertion_order
         scenario_files
         [cfg_server;
          {| UUID := lit "0b0b"; Identifier := lit "b2"; Name := lit "Beta" |}]
         start)
  = Raise (failed_to_create (lit "/") (lit "cfg") (lit "Alpha")).
Proof.
  refine (f_equal fst
            (@fatal_folder_failure_aborts_run unit (stateless alpha_refuses)
               module_config insertion_order scenario_files
               [] [{| UUID := lit "0b0b"; Identifier := lit "b2";
                      Name := lit "Beta" |}]
               cfg_server [] [lit "/cfg/sub"] (lit "/cfg")
               start start _ _ _ _ _ _)).
  - reflexivity.
  - reflexivity.
  - reflexivity.
  - reflexivity.
Defined.

(** C1, as the claim has it, fails: the server Alpha refuses to create a
    folder, and the run ends with the exception without a single request
    for Beta, the server after it. *)
Lemma target_isolation_counterexample :
  run_main alpha_refuses scenario_tree
  = (Raise (failed_to_create (lit "/") (lit "cfg") (lit "Alpha")),
     {| world := tt;
        trace :=
          [GetClient;
           Stdout (EnsuringFolderStructure (lit "Alpha"));
           GetFilesList (lit "a1") (lit "/");
           PostCreateFolder (lit "a1") (lit "cfg") (lit "/");
           Stdout (FailedToCreateFolder (lit "cfg") (lit "/") 500
                    (lit "denied"))] |})
  /\ fst (build_server_list (stateless alpha_refuses) module_config start)
     = Ok [cfg_server;
           {| UUID := lit "0b0b"; Identifier := lit "b2";
              Name := lit "Beta" |}].
Proof. split; vm_compute; reflexivity. Qed.

(** ** The list of servers *)

(** The names in [exclude_servers] change nothing. *)
Lemma exclude_servers_ignored (cfg : Config) (excluded : list str)
    (attrs : server_attrs) :
  server_turn_of_list
    {| DEBUG := DEBUG cfg; valid_images := valid_images cfg;
       exclude_servers := excluded |} attrs
  = server_turn_of_list cfg attrs.
Proof.
  unfold server_turn_of_list. cbn [DEBUG valid_images exclude_servers].
  destruct (exclude_loop excluded (name attrs)).
  destruct (exclude_loop (exclude_servers cfg) (name attrs)). reflexivity.
Qed.

(** C2 on the code: with ["1v1"] in [exclude_servers], a server called
    "Server 1v1 Arena" that runs a valid image is in the list
    [build_server_list] returns. *)
Theorem denylisted_server_is_listed :
  contains (lit "1v1") (name arena) = true /\
  exclude_servers module_config = [lit "1v1"] /\
  fst (build_server_list (stateless (healthy [arena])) module_config start)
  = Ok [{| UUID := lit "0c0c"; Identifier := lit "c3";
           Name := lit "Server 1v1 Arena" |}].
Proof. repeat split; vm_compute; reflexivity. Qed.

(** ** A scan root that is not there *)

(** C8, as the claim has it, fails: in a working directory without an
    [upload] directory the scanner returns the empty list, and [main] goes on
    to the servers and returns normally. *)
Lemma missing_root_counterexample :
  find_entry (lit "upload") [File (lit "sync.py")] = None /\
  build_files (lit "linux") (fun _ => 0%Z) (lit "/home/sync")
    [File (lit "sync.py")] = [] /\
  run_main (healthy [alpha]) [File (lit "sync.py")]
  = (Ok tt,
     {| world := tt;
        trace := [GetClient;
                  Stdout (EnsuringFolderStructure (lit "Alpha"));
                  Stdout (StartingFileUpload (lit "Alpha"))] |}).
Proof. repeat split; vm_compute; reflexivity. Qed.

(** C8, as the code has it.  When the working directory holds no [upload],
    the scanner returns the empty list, and [main] runs the servers with no
    file to upload. *)
Theorem missing_root_scans_nothing (W : Type) (panel : Panel W)
    (cfg : Config) (set_iter : list str -> list str) (sys_platform : str)
    (GetFileAttributesW : str -> Z) (getcwd : str)
    (cwd_entries : list entry) (st : state W) :
  find_entry (lit "upload") cwd_entries = None ->
  build_files sys_platform GetFileAttributesW getcwd cwd_entries = [] /\
  main panel cfg set_iter sys_platform GetFileAttributesW getcwd cwd_entries st
  = (servers <- build_server_list panel cfg ;;
     run_servers panel cfg set_iter [] servers) st.
Proof.
  intros Hnone.
  assert (Hb : build_files sys_platform GetFileAttributesW getcwd cwd_entries
               = []).
  { unfold build_files, os_walk. rewrite Hnone. reflexivity. }
  split; [exact Hb|]. unfold main. rewrite Hb. reflexivity.
Qed.

Lemma missing_root_scans_nothing_witness :
  build_files (lit "linux") (fun _ => 0%Z) (lit "/home/sync")
    [File (lit "sync.py")] = [].
Proof.
  refine (proj1 (@missing_root_scans_nothing unit (stateless (healthy [alpha]))
                   module_config insertion_order (lit "linux") (fun _ => 0%Z)
                   (lit "/home/sync") [File (lit "sync.py")] start _)).
  reflexivity.
Defined.

(** ** The theorems at work on the failing panel *)

Lemma create_folder_outcome_witness :
  fst (create_folder (stateless flaky) module_config
         (lit "a1") (lit "cfg") (lit "/") start) = Ok true.
Proof.
  refine (proj1 (proj1 (proj2 (@create_folder_outcome unit (stateless flaky)
                                 module_config (lit "a1") (lit "cfg")
                                 (lit "/") start))
                   _ 400%Z [] eq_refl)
            (or_intror eq_refl)).
  intros (data & H & _). discriminate H.
Defined.

Lemma existence_check_failure_tolerated_witness :
  exists l,
    folder_exists (stateless flaky) (lit "a1") (lit "/") (lit "cfg") start
    = (Ok false,
       {| world := tt;
          trace := [GetFilesList (lit "a1") (lit "/"); Stdout l] |}).
Proof.
  destruct (proj2 (@existence_check_failure_tolerated unit (stateless flaky)
                     module_config (lit "a1") (lit "cfg") (lit "/") start))
    as (l & H & _).
  - left. discriminate.
  - exists l. exact H.
Defined.

Lemma upload_file_result_witness :
  fst (upload_file (stateless flaky) (lit "a1") (lit "upload/cfg/a.txt")
         (lit "cfg/a.txt") start) = Ok true.
Proof.
  refine (proj1 (proj1 (@upload_file_result unit (stateless flaky) (lit "a1")
                          (lit "upload/cfg/a.txt") (lit "cfg/a.txt") start)
                   [] (lit "https://node/up") 500%Z (lit "disk full")
                   _ _ _)); reflexivity.
Defined.

Lemma upload_independence_witness :
  exists st' evs,
    upload_files (stateless flaky) cfg_server
      (rev scenario_files) start = (Ok tt, st') /\
    trace st' = trace start ++ evs /\
    upload_requests evs
    = [(lit "a1", lit "/cfg/sub"); (lit "a1", lit "/cfg")] /\
    Forall2 about (rev scenario_files) (printed evs) /\
    In (OpenFile (lit "upload/cfg/a.txt")) evs /\
    In (PostSignedUrl (lit "https://node/up") (lit "/cfg")
          (lit "upload/cfg/a.txt")) evs.
Proof.
  destruct (@upload_independence unit (stateless flaky) cfg_server
              (rev scenario_files) start)
    as (st' & evs & Hrun & Ht & Hr & Hl & _ & Heach).
  - repeat split.
    + intros id d w. cbn. destruct (str_eqb d _).
      * do 3 eexists. split; [reflexivity|]. intros H. discriminate H.
      * do 3 eexists. split; [reflexivity|]. intros _. eexists. reflexivity.
    + intros url d p w. do 2 eexists. reflexivity.
  - exists st', evs. repeat (split; [assumption|]).
    destruct (Heach (lit "upload/cfg/a.txt") (lit "cfg/a.txt"))
      as (w0 & chunk & w1 & before & after & -> & Hat);
      [right; left; reflexivity|].
    inversion Hat as [w status text data Hd Hs|w text url us ut Hd Ho Hu];
      subst.
    + exfalso. apply Hs. injection Hd as <- _ _. reflexivity.
    + injection Hd as _ <-.
      split; apply in_or_app; right; apply in_or_app; left.
      * right. left. reflexivity.
      * right. right. left. reflexivity.
Defined.

(** * Further properties *)

(** ** Splitting and joining *)

Lemma split_without (c : ascii) (a : str) : ~ In c a -> split c a = [a].
Proof.
  induction a as [|x r IH]; intros Hn; [reflexivity|].
  simpl. destruct (Ascii.eqb_spec x c) as [->|_].
  - exfalso. apply Hn. left. reflexivity.
  - rewrite IH by (intros H; apply Hn; right; exact H). reflexivity.
Qed.

Lemma split_app_sep (c : ascii) (a b : str) :
  split c (a ++ c :: b) = split c a ++ split c b.
Proof.
  induction a as [|x r IH].
  - simpl. rewrite Ascii.eqb_refl. reflexivity.
  - cbn [app]. simpl split. rewrite IH.
    pose proof (split_not_nil c r) as Hn.
    destruct (Ascii.eqb x c); [reflexivity|].
    destruct (split c r); [congruence|reflexivity].
Qed.

Lemma split_join (c : ascii) (comps : list str) :
  comps <> [] -> Forall (fun p => ~ In c p) comps ->
  split c (join [c] comps) = comps.
Proof.
  induction comps as [|p r IH]; intros Hne Hall; [congruence|].
  inversion Hall as [|? ? Hp Hr]; subst.
  destruct r as [|q r].
  - apply split_without. exact Hp.
  - rewrite join_cons2. cbn [app]. rewrite split_app_sep.
    rewrite split_without by exact Hp.
    rewrite IH by (discriminate || assumption). reflexivity.
Qed.

Lemma split_sep_free (c : ascii) (x : str) :
  Forall (fun p => ~ In c p) (split c x).
Proof.
  induction x as [|a r IH]; [repeat constructor; intros []|].
  simpl. destruct (Ascii.eqb_spec a c) as [->|Hne].
  - constructor; [intros []|exact IH].
  - pose proof (split_not_nil c r) as Hn.
    destruct (split c r) as [|h t]; [congruence|].
    inversion IH as [|? ? Hh Ht]; subst.
    constructor; [|exact Ht].
    intros [H|H]; [congruence|contradiction].
Qed.

Lemma join_snoc (sep : str) (names : list str) (d : str) :
  names <> [] -> join sep (names ++ [d]) = join sep names ++ sep ++ d.
Proof.
  induction names as [|p r IH]; intros Hne; [congruence|].
  destruct r as [|q r]; [reflexivity|].
  cbn [app]. rewrite join_cons2.
  change (q :: r ++ [d]) with ((q :: r) ++ [d]).
  rewrite IH by discriminate. rewrite join_cons2, <- !app_assoc. reflexivity.
Qed.

Lemma replace_join (a b : ascii) (sep : str) (names : list str) :
  replace a b (join sep names)
  = join (replace a b sep) (map (replace a b) names).
Proof.
  induction names as [|p r IH]; [reflexivity|].
  destruct r as [|q r]; [reflexivity|].
  cbn [map]. rewrite !join_cons2. unfold replace at 1.
  rewrite !map_app. fold (replace a b p). fold (replace a b sep).
  fold (replace a b (join sep (q :: r))). rewrite IH. reflexivity.
Qed.

Lemma good_name_spec (sep : ascii) (n : str) :
  good_name sep n = true <->
  n <> [] /\ ~ In sep n /\ n <> [dot] /\ n <> [dot; dot].
Proof.
  unfold good_name. rewrite !andb_true_iff, !negb_true_iff.
  assert (He : forall a b, str_eqb a b = false <-> a <> b).
  { intros a b. unfold str_eqb.
    destruct (list_eq_dec ascii_dec a b); split; congruence. }
  rewrite !He.
  assert (Hx : existsb (Ascii.eqb sep) n = false <-> ~ In sep n).
  { split.
    - intros H Hin. assert (existsb (Ascii.eqb sep) n = true); [|congruence].
      apply existsb_exists. exists sep. split; [exact Hin|].
      apply Ascii.eqb_refl.
    - intros Hn. destruct (existsb (Ascii.eqb sep) n) eqn:E; [|reflexivity].
      apply existsb_exists in E. destruct E as (x & Hin & Hx).
      apply Ascii.eqb_eq in Hx. subst. contradiction. }
  rewrite Hx. tauto.
Qed.

Lemma last_app_right (A : Type) (l1 l2 : list A) (d : A) :
  l2 <> [] -> last (l1 ++ l2) d = last l2 d.
Proof.
  intros Hne. induction l1 as [|x r IH]; [reflexivity|].
  cbn [app]. destruct (r ++ l2) eqn:E.
  - apply app_eq_nil in E. tauto.
  - exact IH.
Qed.

Lemma last_in (A : Type) (l : list A) (d : A) : l <> [] -> In (last l d) l.
Proof.
  induction l as [|x r IH]; intros Hne; [congruence|].
  destruct r as [|y r]; [left; reflexivity|].
  right. apply IH. discriminate.
Qed.

Lemma removelast_Forall (A : Type) (P : A -> Prop) (l : list A) :
  Forall P l -> Forall P (removelast l).
Proof.
  induction 1 as [|x r Hx Hr IH]; [constructor|].
  simpl. destruct r; [constructor|]. constructor; assumption.
Qed.

(** ** The paths the scanner builds *)

Section Paths.

Variable sys_platform : str.
Variable GetFileAttributesW : str -> Z.
Variable getcwd : str.

Abbreviation s := (sep sys_platform).
Abbreviation good := (fun n => good_name (sep sys_platform) n = true).
Abbreviation pjoin := (os_path_join sys_platform).

Lemma good_upload : good_name s (lit "upload") = true.
Proof. unfold sep. destruct (on_windows sys_platform); reflexivity. Qed.

Lemma good_not_startswith (n : str) :
  good n -> startswith [s] n = false.
Proof.
  intros Hg. apply good_name_spec in Hg. destruct Hg as (Hne & Hs & _).
  destruct n as [|x r]; [congruence|]. cbn [startswith].
  destruct (Ascii.eqb_spec s x) as [E|_]; [|reflexivity].
  exfalso. apply Hs. left. symmetry. exact E.
Qed.

Lemma join_head (names : list str) :
  names <> [] -> Forall good names ->
  join [s] names <> [] /\ startswith [s] (join [s] names) = false.
Proof.
  intros Hne Hall. destruct names as [|p r]; [congruence|].
  inversion Hall as [|? ? Hp _]; subst.
  pose proof (good_not_startswith Hp) as Hs.
  apply good_name_spec in Hp. destruct Hp as (Hpne & _).
  destruct p as [|x p]; [congruence|].
  destruct r as [|q r]; [split; [discriminate|exact Hs]|].
  rewrite join_cons2. cbn [app]. split; [discriminate|].
  cbn [startswith] in *. destruct (Ascii.eqb s x); [discriminate|reflexivity].
Qed.

Lemma join_last (names : list str) :
  names <> [] -> Forall good names -> last (join [s] names) s <> s.
Proof.
  induction names as [|p r IH]; intros Hne Hall; [congruence|].
  inversion Hall as [|? ? Hp Hr]; subst.
  destruct r as [|q r].
  - apply good_name_spec in Hp. destruct Hp as (Hpne & Hs & _).
    intros E. apply Hs. rewrite <- E. apply last_in. exact Hpne.
  - rewrite join_cons2, app_assoc.
    rewrite last_app_right by (apply join_head; [discriminate|exact Hr]).
    apply IH; [discriminate|exact Hr].
Qed.

(** Joining a path of names with one more name. *)
Lemma pjoin_names (names : list str) (n : str) :
  names <> [] -> Forall good names -> good n ->
  pjoin (join [s] names) n = join [s] (names ++ [n]).
Proof.
  intros Hne Hall Hn. rewrite join_snoc by exact Hne.
  unfold os_path_join. rewrite (good_not_startswith Hn).
  destruct (join_head Hne Hall) as [Hj _].
  pose proof (join_last Hne Hall) as Hl.
  destruct (join [s] names) as [|x r] eqn:E; [congruence|].
  destruct (Ascii.eqb_spec (last (x :: r) s) s); [contradiction|reflexivity].
Qed.

Lemma fold_pjoin (rest names : list str) :
  names <> [] -> Forall good names -> Forall good rest ->
  fold_left pjoin rest (join [s] names) = join [s] (names ++ rest).
Proof.
  revert names. induction rest as [|n rest IH]; intros names Hne Hall Hrest.
  - rewrite app_nil_r. reflexivity.
  - inversion Hrest as [|? ? Hn Hr]; subst. cbn [fold_left].
    rewrite pjoin_names by assumption.
    rewrite IH; [rewrite <- app_assoc; reflexivity| | |exact Hr].
    + destruct names; discriminate.
    + apply Forall_app. split; [exact Hall|]. constructor; [exact Hn|constructor].
Qed.

(** [normpath] leaves good names as they are. *)
Lemma normpath_fold_good (init : bool) (names acc : list str) :
  Forall good names ->
  fold_left (normpath_step init) names acc = acc ++ names.
Proof.
  revert acc. induction names as [|n r IH]; intros acc Hall.
  - rewrite app_nil_r. reflexivity.
  - inversion Hall as [|? ? Hn Hr]; subst. cbn [fold_left].
    assert (Hstep : normpath_step init acc n = acc ++ [n]).
    { unfold normpath_step.
      unfold good_name in Hn. rewrite !andb_true_iff, !negb_true_iff in Hn.
      destruct Hn as (((H1 & _) & H3) & H4). rewrite H1, H3, H4.
      reflexivity. }
    rewrite IH by exact Hr. rewrite Hstep, <- app_assoc. reflexivity.
Qed.

Lemma normpath_fold_ok (init : bool) (comps acc : list str) :
  Forall (fun p => ~ In s p) comps -> Forall (part_ok s) acc ->
  Forall (part_ok s) (fold_left (normpath_step init) comps acc).
Proof.
  revert acc. induction comps as [|c r IH]; intros acc Hc Hacc; [exact Hacc|].
  inversion Hc as [|? ? Hcs Hr]; subst. cbn [fold_left]. apply IH; [exact Hr|].
  unfold normpath_step.
  destruct (str_eqb c []) eqn:E1; [exact Hacc|]. cbn [orb].
  destruct (str_eqb c [dot]); [exact Hacc|].
  match goal with |- Forall _ (if ?b then _ else _) => destruct b end.
  - apply Forall_app. split; [exact Hacc|].
    constructor; [|constructor]. split; [|exact Hcs].
    intros ->. discriminate E1.
  - apply removelast_Forall. exact Hacc.
Qed.

Lemma good_part_ok (names : list str) :
  Forall good names -> Forall (part_ok s) names.
Proof.
  intros H. eapply Forall_impl; [|exact H].
  intros n Hn. apply good_name_spec in Hn. unfold part_ok. tauto.
Qed.

Lemma nonempty_parts_seps (prefix x : str) :
  Forall (fun c => c = s) prefix ->
  nonempty_parts sys_platform (prefix ++ x) = nonempty_parts sys_platform x.
Proof.
  induction 1 as [|c r Hc Hr IH]; [reflexivity|]. subst c.
  unfold nonempty_parts in *. cbn [app]. simpl split.
  rewrite Ascii.eqb_refl. cbn [filter]. exact IH.
Qed.

Lemma nonempty_parts_join (comps : list str) :
  comps <> [] -> Forall (part_ok s) comps ->
  nonempty_parts sys_platform (join [s] comps) = comps.
Proof.
  intros Hne Hall. unfold nonempty_parts.
  rewrite split_join; [|exact Hne|].
  - apply forallb_filter_id. apply forallb_forall. intros x Hx.
    rewrite Forall_forall in Hall. destruct (Hall x Hx) as [Hxne _].
    unfold str_eqb. destruct (list_eq_dec ascii_dec x []); [contradiction|].
    reflexivity.
  - eapply Forall_impl; [|exact Hall]. intros q [_ Hq]. exact Hq.
Qed.

Lemma str_eqb_refl (a : str) : str_eqb a a = true.
Proof. apply str_eqb_eq. reflexivity. Qed.

Lemma join_ok_nonempty (comps : list str) :
  comps <> [] -> Forall (part_ok s) comps -> join [s] comps <> [].
Proof.
  intros Hne Hall. destruct comps as [|p r]; [congruence|].
  inversion Hall as [|? ? [Hp _] _]; subst.
  destruct p as [|x p]; [congruence|].
  destruct r; [discriminate|]. rewrite join_cons2. discriminate.
Qed.

(** What [normpath] makes of a path: separators in front of the joined
    components that its loop keeps. *)
Lemma normpath_shape (x : str) :
  x <> [] ->
  exists prefix,
    Forall (fun c => c = s) prefix /\
    normpath sys_platform x
    = str_or (prefix
              ++ join [s]
                   (fold_left (normpath_step (startswith [s] x))
                      (split s x) []))
             [dot].
Proof.
  intros Hne. destruct x as [|a x]; [congruence|]. unfold normpath.
  destruct (startswith [s] (a :: x)).
  - destruct (startswith [s; s] (a :: x)
              && negb (startswith [s; s; s] (a :: x))).
    + exists [s; s]. split; [repeat constructor|reflexivity].
    + exists [s]. split; [repeat constructor|reflexivity].
  - exists []. split; [constructor|reflexivity].
Qed.

Lemma normpath_parts (x : str) (pre names : list str) :
  x <> [] -> split s x = pre ++ names ->
  Forall (fun p => ~ In s p) pre ->
  names <> [] -> Forall good names ->
  nonempty_parts sys_platform (normpath sys_platform x)
  = fold_left (normpath_step (startswith [s] x)) pre [] ++ names.
Proof.
  intros Hx Hsplit Hpre Hne Hgood.
  destruct (normpath_shape Hx) as (prefix & Hp & ->).
  rewrite Hsplit, fold_left_app, normpath_fold_good by exact Hgood.
  set (S := fold_left (normpath_step (startswith [s] x)) pre []).
  assert (HS : Forall (part_ok s) (S ++ names)).
  { apply Forall_app. split; [|apply good_part_ok; exact Hgood].
    apply normpath_fold_ok; [exact Hpre|constructor]. }
  assert (Hn : S ++ names <> []).
  { intros E. apply app_eq_nil in E. tauto. }
  pose proof (join_ok_nonempty Hn HS) as Hj.
  replace (str_or (prefix ++ join [s] (S ++ names)) [dot])
    with (prefix ++ join [s] (S ++ names)).
  2:{ destruct (prefix ++ join [s] (S ++ names)) eqn:E; [|reflexivity].
      apply app_eq_nil in E. tauto. }
  rewrite nonempty_parts_seps by exact Hp.
  apply nonempty_parts_join; assumption.
Qed.

(** The components of [abspath] of a relative path of good names: those of
    the working directory, then the names. *)
Lemma abspath_parts :
  exists S,
    forall names,
      names <> [] -> Forall good names ->
      nonempty_parts sys_platform
        (abspath sys_platform getcwd (join [s] names))
      = S ++ names.
Proof.
  assert (Hcut : forall c0, exists S, forall names,
             names <> [] -> Forall good names ->
             nonempty_parts sys_platform
               (normpath sys_platform (c0 ++ s :: join [s] names))
             = S ++ names).
  { intros c0.
    exists (fold_left (normpath_step (startswith [s] (c0 ++ [s])))
              (split s c0) []).
    intros names Hne Hgood.
    replace (startswith [s] (c0 ++ [s]))
      with (startswith [s] (c0 ++ s :: join [s] names))
      by (destruct c0; reflexivity).
    apply normpath_parts; try assumption.
    - destruct c0; discriminate.
    - rewrite split_app_sep. f_equal. apply split_join; [exact Hne|].
      eapply Forall_impl; [|apply good_part_ok; exact Hgood].
      intros q [_ Hq]. exact Hq.
    - apply split_sep_free. }
  unfold abspath, os_path_join.
  destruct getcwd as [|c cwd] eqn:Ecwd.
  - exists []. intros names Hne Hgood.
    destruct (join_head Hne Hgood) as [Hj Hs]. rewrite Hs. cbn [app].
    rewrite (@normpath_parts _ [] names); try assumption;
      [reflexivity| |constructor].
    apply split_join; [exact Hne|].
    eapply Forall_impl; [|apply good_part_ok; exact Hgood].
    intros q [_ Hq]. exact Hq.
  - destruct (Ascii.eqb_spec (last (c :: cwd) s) s) as [Hl|Hl].
    + destruct (Hcut (removelast (c :: cwd))) as [S HS]. exists S.
      intros names Hne Hgood.
      destruct (join_head Hne Hgood) as [_ Hs]. rewrite Hs.
      rewrite (app_removelast_last s (l := c :: cwd)) by discriminate.
      rewrite Hl, <- app_assoc. apply HS; assumption.
    + destruct (Hcut (c :: cwd)) as [S HS]. exists S.
      intros names Hne Hgood.
      destruct (join_head Hne Hgood) as [_ Hs]. rewrite Hs.
      apply HS; assumption.
Qed.

Lemma commonprefix_len_app (S rest : list str) (u : str) :
  commonprefix_len (S ++ [u]) (S ++ u :: rest) = length S + 1.
Proof.
  induction S as [|x S IH]; cbn [app commonprefix_len length];
    rewrite str_eqb_refl; [destruct rest; reflexivity|].
  rewrite IH. reflexivity.
Qed.

(** [relpath] strips the scan root from a path of good names below it. *)
Lemma relpath_upload (rest : list str) :
  rest <> [] -> Forall good rest ->
  relpath sys_platform getcwd (join [s] (lit "upload" :: rest)) (lit "upload")
  = join [s] rest.
Proof.
  intros Hne Hgood. destruct abspath_parts as [S HS]. unfold relpath.
  change (abspath sys_platform getcwd (lit "upload"))
    with (abspath sys_platform getcwd (join [s] [lit "upload"])).
  rewrite !HS; try discriminate;
    try (constructor; [apply good_upload|assumption || constructor]).
  rewrite commonprefix_len_app, length_app. cbn [length].
  replace (length S + 1 - (length S + 1)) with 0 by lia. cbn [repeat app].
  replace (S ++ lit "upload" :: rest) with ((S ++ [lit "upload"]) ++ rest)
    by (rewrite <- app_assoc; reflexivity).
  rewrite skipn_app, skipn_all2 by (rewrite length_app; simpl; lia).
  rewrite length_app. cbn [length app].
  replace (length S + 1 - (length S + 1)) with 0 by lia. cbn [skipn].
  destruct rest as [|first rest]; [congruence|].
  inversion Hgood as [|? ? Hf Hr]; subst.
  change first with (join [s] [first]) at 1.
  rewrite fold_pjoin; [reflexivity|discriminate| |exact Hr].
  constructor; [exact Hf|constructor].
Qed.

Lemma file_names_good (children : list entry) :
  forallb (names_ok s) children = true -> Forall good (file_names children).
Proof.
  intros H. rewrite forallb_forall in H. apply Forall_forall.
  intros f Hf.
  apply (file_names_In sys_platform GetFileAttributesW) in Hf.
  exact (H _ Hf).
Qed.

(** Every directory the walk visits sits at the path of good names that
    leads to it. *)
Lemma walk_paths (e : entry) :
  forall names root dirs files,
    names <> [] -> Forall good names -> names_ok s e = true ->
    In (root, dirs, files)
       (walk sys_platform GetFileAttributesW (join [s] names) e) ->
    exists chain,
      Forall good chain /\ root = join [s] (names ++ chain) /\
      Forall good files.
Proof.
  induction e as [n|n children IH] using entry_nested_ind;
    intros names root dirs files Hne Hgood Hok Hin.
  - destruct Hin.
  - cbn [names_ok] in Hok. apply andb_true_iff in Hok.
    destruct Hok as [_ Hch]. cbn [walk] in Hin. destruct Hin as [Heq|Hin].
    + injection Heq as <- _ <-. exists []. rewrite app_nil_r.
      split; [constructor|]. split; [reflexivity|].
      apply file_names_good. exact Hch.
    + apply in_flat_map in Hin. destruct Hin as (sub & Hsub & Hin).
      destruct sub as [f|d sub]; [destruct Hin|].
      destruct (negb _); [|destruct Hin].
      pose proof (proj1 (forallb_forall _ _) Hch _ Hsub) as Hd.
      assert (Hgd : good d).
      { cbn [names_ok] in Hd. apply andb_true_iff in Hd. tauto. }
      rewrite pjoin_names in Hin by assumption.
      rewrite Forall_forall in IH.
      destruct (IH _ Hsub (names ++ [d]) root dirs files) as (chain & Hc & Hr & Hf);
        try assumption.
      * destruct names; discriminate.
      * apply Forall_app. split; [exact Hgood|]. constructor; [exact Hgd|constructor].
      * exists (d :: chain). split; [constructor; assumption|].
        split; [rewrite Hr, <- app_assoc; reflexivity|exact Hf].
Qed.

Lemma replace_sep : replace backslash slash [s] = [slash].
Proof. unfold sep. destruct (on_windows sys_platform); reflexivity. Qed.

(** X1. In a tree of names as [os.scandir] gives them, every pair of the
    scanner's output is a file below the scan root: its local path is
    [upload], the directories down to it and its name, joined by the
    separator of the host, and its remote path is the same names without
    [upload], joined by slashes, a backslash in a name having become a
    slash. *)
Theorem build_files_paths (cwd_entries : list entry)
    (local_path remote_path : str) :
  (forall e, find_entry (lit "upload") cwd_entries = Some e ->
             names_ok s e = true) ->
  In (local_path, remote_path)
     (build_files sys_platform GetFileAttributesW getcwd cwd_entries) ->
  exists chain file,
    Forall good (chain ++ [file]) /\
    local_path = join [s] (lit "upload" :: chain ++ [file]) /\
    remote_path
    = join [slash] (map (replace backslash slash) (chain ++ [file])).
Proof.
  intros Hok Hin. unfold build_files, os_walk in Hin.
  destruct (find_entry (lit "upload") cwd_entries) as [e|] eqn:E;
    [|destruct Hin].
  apply in_flat_map in Hin. destruct Hin as ([[root dirs] files] & Hw & Hf).
  apply in_flat_map in Hf. destruct Hf as (file & Hfile & Hs).
  change (lit "upload") with (join [s] [lit "upload"]) in Hw.
  destruct (@walk_paths e [lit "upload"] root dirs files) as (chain & Hc & -> & Hfs);
    try assumption; try discriminate.
  { constructor; [apply good_upload|constructor]. }
  { apply Hok. reflexivity. }
  assert (Hgf : good file) by (rewrite Forall_forall in Hfs; apply Hfs, Hfile).
  assert (Hall : Forall good (chain ++ [file])).
  { apply Forall_app. split; [exact Hc|]. constructor; [exact Hgf|constructor]. }
  unfold scan_file in Hs.
  rewrite pjoin_names in Hs; try assumption; try discriminate.
  2:{ constructor; [apply good_upload|exact Hc]. }
  destruct (is_hidden _ _ _); [destruct Hs|].
  destruct Hs as [Heq|[]]. apply pair_equal_spec in Heq.
  destruct Heq as [<- <-].
  exists chain, file. split; [exact Hall|].
  rewrite <- app_assoc. split; [reflexivity|].
  change ([lit "upload"] ++ chain ++ [file])
    with (lit "upload" :: chain ++ [file]).
  rewrite relpath_upload by (assumption || (destruct chain; discriminate)).
  rewrite replace_join, replace_sep. reflexivity.
Qed.

End Paths.

Lemma build_files_paths_witness :
  exists chain file,
    Forall (fun n => good_name slash n = true) (chain ++ [file]) /\
    lit "upload/cfg/sub/b.txt" = join [slash] (lit "upload" :: chain ++ [file]) /\
    lit "cfg/sub/b.txt"
    = join [slash] (map (replace backslash slash) (chain ++ [file])).
Proof.
  apply (@build_files_paths (lit "linux") (fun _ => 0%Z) (lit "/home/sync")
           scenario_tree (lit "upload/cfg/sub/b.txt") (lit "cfg/sub/b.txt")).
  - intros e He. injection He as <-. reflexivity.
  - right. left. reflexivity.
Defined.

(** ** The hidden rule *)

Lemma land_two (a : Z) :
  negb (Z.land a 2 =? 0)%Z = Z.testbit a 1.
Proof.
  assert (H : Z.land a 2 = if Z.testbit a 1 then 2%Z else 0%Z).
  { apply Z.bits_inj'. intros n Hn. rewrite Z.land_spec.
    change 2%Z with (2 ^ 1)%Z at 1. rewrite Z.pow2_bits_eqb by lia.
    destruct (Z.eqb_spec 1 n) as [<-|Hne].
    - rewrite andb_true_r. destruct (Z.testbit a 1); reflexivity.
    - rewrite andb_false_r. destruct (Z.testbit a 1).
      + change 2%Z with (2 ^ 1)%Z. rewrite Z.pow2_bits_eqb by lia.
        symmetry. apply Z.eqb_neq. exact Hne.
      + symmetry. apply Z.bits_0. }
  rewrite H. destruct (Z.testbit a 1); reflexivity.
Qed.

(** X2. On Windows a path is hidden when [GetFileAttributesW] answers
    with something else than -1 in which bit 1, the hidden attribute, is
    set; a path for which the call fails (-1) is not hidden, although -1
    has every bit set. *)
Theorem hidden_on_windows (sys_platform : str)
    (GetFileAttributesW : str -> Z) (filepath : str) :
  on_windows sys_platform = true ->
  is_hidden sys_platform GetFileAttributesW filepath
  = negb (GetFileAttributesW filepath =? -1)%Z
    && Z.testbit (GetFileAttributesW filepath) 1
  /\ (GetFileAttributesW filepath = (-1)%Z ->
      is_hidden sys_platform GetFileAttributesW filepath = false /\
      Z.testbit (GetFileAttributesW filepath) 1 = true).
Proof.
  intros Hw. unfold is_hidden. rewrite Hw. unfold FILE_ATTRIBUTE_HIDDEN.
  rewrite land_two. split.
  - destruct (GetFileAttributesW filepath =? -1)%Z; reflexivity.
  - intros ->. split; reflexivity.
Qed.

Lemma hidden_on_windows_witness :
  is_hidden (lit "win32") (fun _ => 34%Z) (lit "upload\cfg")
  = negb (34 =? -1)%Z && Z.testbit 34 1.
Proof.
  refine (proj1 (@hidden_on_windows (lit "win32") (fun _ => 34%Z)
                   (lit "upload\cfg") _)).
  reflexivity.
Defined.

Section PosixScan.

Variable sys_platform : str.
Variable GetFileAttributesW : str -> Z.
Variable getcwd : str.
Hypothesis posix : on_windows sys_platform = false.

Abbreviation no_dot := (fun n => startswith [dot] n = false).
Abbreviation named := (fun n => good_name slash n = true).

Lemma posix_sep : sep sys_platform = slash.
Proof. unfold sep. rewrite posix. reflexivity. Qed.

Lemma walk_no_dot (e : entry) :
  forall names root dirs files,
    names <> [] -> Forall named names -> names_ok slash e = true ->
    In (root, dirs, files)
       (walk sys_platform GetFileAttributesW (join [slash] names) e) ->
    exists chain,
      Forall named chain /\ Forall no_dot chain /\
      root = join [slash] (names ++ chain) /\
      Forall named files.
Proof.
  induction e as [n|n children IH] using entry_nested_ind;
    intros names root dirs files Hne Hgood Hok Hin.
  - destruct Hin.
  - cbn [names_ok] in Hok. apply andb_true_iff in Hok.
    destruct Hok as [_ Hch]. cbn [walk] in Hin. destruct Hin as [Heq|Hin].
    + apply pair_equal_spec in Heq. destruct Heq as [Heq <-].
      apply pair_equal_spec in Heq. destruct Heq as [<- _].
      exists []. rewrite app_nil_r.
      split; [constructor|]. split; [constructor|]. split; [reflexivity|].
      pose proof (@file_names_good sys_platform GetFileAttributesW children)
        as Hf.
      rewrite posix_sep in Hf. apply Hf. exact Hch.
    + apply in_flat_map in Hin. destruct Hin as (sub & Hsub & Hin).
      destruct sub as [f|d sub]; [destruct Hin|].
      pose proof (proj1 (forallb_forall _ _) Hch _ Hsub) as Hd.
      assert (Hgd : named d).
      { cbn [names_ok] in Hd. apply andb_true_iff in Hd. tauto. }
      assert (Hj : os_path_join sys_platform (join [slash] names) d
                   = join [slash] (names ++ [d])).
      { pose proof (@pjoin_names sys_platform names d) as Hp.
        rewrite posix_sep in Hp. apply Hp; assumption. }
      assert (Hh : is_hidden sys_platform GetFileAttributesW
                     (os_path_join sys_platform (join [slash] names) d)
                   = startswith [dot] d).
      { apply posix_hidden_by_name; [exact posix| |].
        - pose proof (@join_head sys_platform names) as Hjh.
          rewrite posix_sep in Hjh. apply Hjh; assumption.
        - apply good_name_spec in Hgd. tauto. }
      rewrite Hh in Hin. destruct (startswith [dot] d) eqn:Hdot;
        [destruct Hin|]. cbn [negb] in Hin. rewrite Hj in Hin.
      rewrite Forall_forall in IH.
      destruct (IH _ Hsub (names ++ [d]) root dirs files)
        as (chain & Hc & Hn & Hr & Hf); try assumption.
      * destruct names; discriminate.
      * apply Forall_app. split; [exact Hgood|].
        constructor; [exact Hgd|constructor].
      * exists (d :: chain). split; [constructor; assumption|].
        split; [constructor; assumption|].
        split; [rewrite Hr, <- app_assoc; reflexivity|exact Hf].
Qed.

(** X3. On a host that is not Windows, in a tree of names as
    [os.scandir] gives them, no component below the scan root of a local
    path in the scanner's output begins with a dot: neither the name of the
    file nor that of any directory on the way down to it. *)
Theorem posix_scan_has_no_dot_name (cwd_entries : list entry)
    (local_path remote_path : str) :
  (forall e, find_entry (lit "upload") cwd_entries = Some e ->
             names_ok slash e = true) ->
  In (local_path, remote_path)
     (build_files sys_platform GetFileAttributesW getcwd cwd_entries) ->
  exists chain file,
    local_path = join [slash] (lit "upload" :: chain ++ [file]) /\
    Forall named (chain ++ [file]) /\
    Forall no_dot (chain ++ [file]).
Proof.
  intros Hok Hin. unfold build_files, os_walk in Hin.
  destruct (find_entry (lit "upload") cwd_entries) as [e|] eqn:E;
    [|destruct Hin].
  apply in_flat_map in Hin. destruct Hin as ([[root dirs] files] & Hw & Hf).
  apply in_flat_map in Hf. destruct Hf as (file & Hfile & Hs).
  change (lit "upload") with (join [slash] [lit "upload"]) in Hw.
  destruct (@walk_no_dot e [lit "upload"] root dirs files)
    as (chain & Hc & Hn & -> & Hfs); try assumption; try discriminate.
  { repeat constructor. }
  { apply Hok. reflexivity. }
  assert (Hgf : named file) by (rewrite Forall_forall in Hfs; apply Hfs, Hfile).
  assert (Hup : Forall named ([lit "upload"] ++ chain)).
  { constructor; [reflexivity|exact Hc]. }
  assert (Hj : os_path_join sys_platform
                 (join [slash] ([lit "upload"] ++ chain)) file
               = join [slash] (([lit "upload"] ++ chain) ++ [file])).
  { pose proof (@pjoin_names sys_platform ([lit "upload"] ++ chain) file)
      as Hp.
    rewrite posix_sep in Hp. apply Hp; [discriminate|exact Hup|exact Hgf]. }
  assert (Hh : is_hidden sys_platform GetFileAttributesW
                 (os_path_join sys_platform
                    (join [slash] ([lit "upload"] ++ chain)) file)
               = startswith [dot] file).
  { apply posix_hidden_by_name; [exact posix| |].
    - pose proof (@join_head sys_platform ([lit "upload"] ++ chain)) as Hjh.
      rewrite posix_sep in Hjh. apply Hjh; [discriminate|exact Hup].
    - apply good_name_spec in Hgf. tauto. }
  unfold scan_file in Hs. rewrite Hh in Hs.
  destruct (startswith [dot] file) eqn:Hdot; [destruct Hs|].
  destruct Hs as [Heq|[]]. apply pair_equal_spec in Heq.
  destruct Heq as [<- _]. exists chain, file.
  split; [rewrite Hj, <- app_assoc; reflexivity|].
  split; apply Forall_app; split; try assumption;
    (constructor; [assumption|constructor]).
Qed.

End PosixScan.

Lemma posix_scan_has_no_dot_name_witness :
  exists chain file,
    lit "upload/cfg/sub/b.txt" = join [slash] (lit "upload" :: chain ++ [file]) /\
    Forall (fun n => good_name slash n = true) (chain ++ [file]) /\
    Forall (fun n => startswith [dot] n = false) (chain ++ [file]).
Proof.
  apply (@posix_scan_has_no_dot_name (lit "linux") (fun _ => 0%Z)
           (lit "/home/sync") eq_refl scenario_tree
           (lit "upload/cfg/sub/b.txt") (lit "cfg/sub/b.txt")).
  - intros e He. injection He as <-. reflexivity.
  - right. left. reflexivity.
Defined.

(** ** Fetching the servers *)

Section ServerList.

Variable W : Type.
Variable panel : Panel W.

(** [fetch], run. *)
Lemma fetch_run (st : state W) :
  fetch panel st
  = let (r, w) := get_client panel (world st) in
    let asked := trace st ++ [GetClient] in
    let failed := fun e =>
      match e with
      | TimeoutError =>
          (Ok None,
           {| world := w; trace := asked ++ [Stdout TimeoutFetching] |})
      | ClientError | ContentTypeError =>
          (Ok None,
           {| world := w; trace := asked ++ [Stdout (NetworkError e)] |})
      | OtherError | Exception _ =>
          (Raise e, {| world := w; trace := asked |})
      end in
    match r with
    | Raised e => failed e
    | Response status body =>
        if (status =? 200)%Z then
          match body with
          | Json data => (Ok (Some data), {| world := w; trace := asked |})
          | BadJson ContentTypeError =>
              (Ok None,
               {| world := w; trace := asked ++ [Stdout NonJsonResponse] |})
          | BadJson e => failed e
          end
        else
          (Ok None,
           {| world := w;
              trace := asked ++ [Stdout (RequestFailed status)] |})
    end.
Proof.
  unfold fetch. run_step.
  destruct (get_client panel (world st)) as [[e|status body] w].
  - destruct e; reflexivity.
  - destruct (status =? 200)%Z; [|reflexivity].
    destruct body as [data|e]; [reflexivity|]. destruct e; reflexivity.
Qed.

(** The result of [fetch], by the reply. *)
Lemma fetch_result_cases (st : state W) :
  let r := fst (get_client panel (world st)) in
  (forall data,
      fst (fetch panel st) = Ok (Some data) <-> r = Response 200 (Json data))
  /\
  (forall e,
      fst (fetch panel st) = Raise e <->
      ~ caught e /\ (r = Raised e \/ r = Response 200 (BadJson e)))
  /\
  (fst (fetch panel st) = Ok None <->
   (exists status body, r = Response status body /\ status <> 200%Z) \/
   (exists e, caught e /\ (r = Raised e \/ r = Response 200 (BadJson e)))).
Proof.
  intros r. subst r. rewrite fetch_run. unfold caught.
  destruct (get_client panel (world st)) as [[e|status body] w]; cbn [fst].
  - destruct e; cbn [fst]; (split; [|split]);
      try (intros x; split); try split;
      try (intros H; discriminate H);
      try (intros H; injection H as <-);
      try (intros H; right; eexists; split; [|left; reflexivity]; tauto);
      firstorder congruence.
  - destruct (Z.eqb_spec status 200) as [->|Hne].
    + destruct body as [data|e]; [|destruct e]; cbn [fst];
        (split; [|split]);
        try (intros x; split); try split;
        try (intros H; discriminate H);
        try (intros H; injection H as <-);
        try (intros H; right; eexists; split; [|right; reflexivity]; tauto);
        firstorder congruence.
    + cbn [fst]. split; [|split].
      * intros data. split; [discriminate|].
        intros H. injection H as H _. contradiction.
      * intros e. split; [discriminate|].
        intros (_ & [H|H]); [discriminate|].
        injection H as H _. contradiction.
      * split; [|reflexivity].
        intros _. left. exists status, body. tauto.
Qed.

(** X4. [fetch] returns what [response.json()] gives exactly when the
    request answers 200 and [json()] returns, whatever the value is (a null
    body, which is Python's [None], included), and it has then printed
    nothing.  It raises exactly when the request or [json()] raises
    something else than a timeout or a client error, which it does not
    catch.  In every other case (another status, a timeout, a client error,
    a body that is not JSON) it returns the [None] of its own and has
    printed one line.  It never looks into the value: a value without
    [data] is returned like any other. *)
Theorem fetch_outcome (st : state W) :
  let r := fst (get_client panel (world st)) in
  (forall data,
      fst (fetch panel st) = Ok (Some data) <-> r = Response 200 (Json data))
  /\
  (forall e,
      fst (fetch panel st) = Raise e <->
      ~ caught e /\ (r = Raised e \/ r = Response 200 (BadJson e)))
  /\
  (fst (fetch panel st) = Ok None <->
   (exists status body, r = Response status body /\ status <> 200%Z) \/
   (exists e, caught e /\ (r = Raised e \/ r = Response 200 (BadJson e))))
  /\
  (forall data,
      fst (fetch panel st) = Ok (Some data) ->
      trace (snd (fetch panel st)) = trace st ++ [GetClient])
  /\
  (fst (fetch panel st) = Ok None ->
   exists l, trace (snd (fetch panel st)) = trace st ++ [GetClient; Stdout l]).
Proof.
  intros r. destruct (fetch_result_cases st) as (H1 & H2 & H3).
  split; [exact H1|]. split; [exact H2|]. split; [exact H3|].
  clear H1 H2 H3. subst r. rewrite fetch_run.
  destruct (get_client panel (world st)) as [[e|status body] w].
  - split.
    + intros data H. destruct e; discriminate H.
    + intros H. destruct e; try discriminate H; cbn [snd trace];
        rewrite <- app_assoc; eexists; reflexivity.
  - destruct (status =? 200)%Z.
    + destruct body as [data|e].
      * split; [intros d _; reflexivity|discriminate].
      * split.
        -- intros data H. destruct e; discriminate H.
        -- intros H. destruct e; try discriminate H; cbn [snd trace];
             rewrite <- app_assoc; eexists; reflexivity.
    + split; [discriminate|]. intros _. cbn [snd trace].
      rewrite <- app_assoc. eexists. reflexivity.
Qed.

Variable cfg : Config.

Lemma server_turn_of_list_eligible (attrs : server_attrs) :
  server_turn_of_list cfg attrs
  = if eligible cfg attrs then [as_server attrs] else [].
Proof.
  unfold server_turn_of_list, eligible, as_server.
  destruct (exclude_loop (exclude_servers cfg) (name attrs)).
  destruct (DEBUG cfg); cbn [andb negb orb];
    destruct (contains (lit "Dev") (name attrs)); cbn [andb negb orb];
    destruct (existsb (str_eqb (docker_image attrs)) (valid_images cfg));
    reflexivity.
Qed.

Lemma servers_kept (servers : list server_attrs) :
  flat_map (server_turn_of_list cfg) servers
  = map as_server (filter (eligible cfg) servers).
Proof.
  induction servers as [|a r IH]; [reflexivity|].
  cbn [flat_map filter]. rewrite server_turn_of_list_eligible, IH.
  destruct (eligible cfg a); reflexivity.
Qed.

(** X5. When the panel answers the listing with 200 and servers,
    [build_server_list] returns, in the order of the listing, the servers
    whose image is in [valid_images] and, when [DEBUG] is set, whose name
    holds "Dev"; every server it returns runs a valid image, and
    [exclude_servers] has no part in the choice. *)
Theorem build_server_list_filters (st : state W)
    (servers : list server_attrs) :
  fst (get_client panel (world st)) = Response 200 (Json (Servers servers)) ->
  fst (build_server_list panel cfg st)
  = Ok (map as_server (filter (eligible cfg) servers))
  /\
  (forall attrs,
      In attrs (filter (eligible cfg) servers) ->
      In (docker_image attrs) (valid_images cfg) /\
      (DEBUG cfg = true -> contains (lit "Dev") (name attrs) = true)).
Proof.
  intros Hr. split.
  - unfold build_server_list. unfold bind at 1. rewrite fetch_run.
    destruct (get_client panel (world st)) as [r w]. cbn [fst] in Hr.
    subst r. cbn. rewrite servers_kept. reflexivity.
  - intros attrs Hin. apply filter_In in Hin. destruct Hin as [_ He].
    unfold eligible in He. apply andb_true_iff in He. destruct He as [Hd Hi].
    split.
    + apply existsb_exists in Hi. destruct Hi as (img & Hin & Heq).
      apply str_eqb_eq in Heq. rewrite Heq. exact Hin.
    + intros HD. rewrite HD in Hd. exact Hd.
Qed.


(** X6. When [fetch] gets no data (another status than 200, a timeout,
    a client error, a body that is not JSON), the list of servers is empty
    and [main] ends normally right there, whatever the local tree holds:
    it has made the one request and printed one line. *)
Theorem main_without_servers (set_iter : list str -> list str)
    (sys_platform : str) (GetFileAttributesW : str -> Z) (getcwd : str)
    (cwd_entries : list entry) (st : state W) :
  fst (fetch panel st) = Ok None ->
  build_server_list panel cfg st = (Ok [], snd (fetch panel st)) /\
  main panel cfg set_iter sys_platform GetFileAttributesW getcwd cwd_entries
    st = (Ok tt, snd (fetch panel st)) /\
  exists l,
    trace (snd (fetch panel st)) = trace st ++ [GetClient; Stdout l].
Proof.
  intros Hf.
  assert (Hb : build_server_list panel cfg st = (Ok [], snd (fetch panel st))).
  { unfold build_server_list. unfold bind at 1.
    destruct (fetch panel st) as [r st1]. cbn [fst] in Hf. subst r.
    reflexivity. }
  split; [exact Hb|]. split.
  - unfold main. unfold bind at 1. rewrite Hb. reflexivity.
  - rewrite fetch_run in Hf |- *.
    destruct (get_client panel (world st)) as [[e|status body] w].
    + destruct e; try discriminate Hf; cbn [snd trace];
        rewrite <- app_assoc; eexists; reflexivity.
    + destruct (status =? 200)%Z.
      * destruct body as [data|e]; [discriminate Hf|].
        destruct e; try discriminate Hf; cbn [snd trace];
          rewrite <- app_assoc; eexists; reflexivity.
      * cbn [snd trace]. rewrite <- app_assoc. eexists. reflexivity.
Qed.

End ServerList.

Lemma fetch_outcome_witness :
  fst (fetch (stateless unreachable) start) = Ok None.
Proof.
  refine (proj2 (proj1 (proj2 (proj2 (@fetch_outcome unit
                                        (stateless unreachable) start)))) _).
  right. exists TimeoutError. split; [left; reflexivity|left; reflexivity].
Defined.

Lemma build_server_list_filters_witness :
  fst (build_server_list (stateless cfg_is_there) module_config start)
  = Ok (map as_server (filter (eligible module_config) [alpha; arena])).
Proof.
  refine (proj1 (@build_server_list_filters unit (stateless cfg_is_there)
                   module_config start [alpha; arena] _)).
  reflexivity.
Defined.


Lemma main_without_servers_witness :
  main (stateless unreachable) module_config insertion_order (lit "linux")
    (fun _ => 0%Z) (lit "/home/sync") scenario_tree start
  = (Ok tt, snd (fetch (stateless unreachable) start)).
Proof.
  refine (proj1 (proj2 (@main_without_servers unit (stateless unreachable)
                          module_config insertion_order (lit "linux")
                          (fun _ => 0%Z) (lit "/home/sync") scenario_tree
                          start _))).
  reflexivity.
Defined.

(** ** More on folder materialization *)

Lemma folder_phase_no_upload (evs : list event) :
  Forall folder_phase evs -> upload_events evs = [].
Proof.
  induction 1 as [|ev r Hev Hr IH]; [reflexivity|].
  cbn [upload_events filter]. fold (upload_events r). rewrite IH.
  destruct ev; solve [reflexivity | destruct Hev].
Qed.

Lemma upload_phase_no_folder (evs : list event) :
  Forall upload_phase evs -> folder_events evs = [].
Proof.
  induction 1 as [|ev r Hev Hr IH]; [reflexivity|].
  cbn [folder_events filter]. fold (folder_events r). rewrite IH.
  destruct ev; solve [reflexivity | destruct Hev].
Qed.

Lemma list_requests_app (a b : list event) :
  list_requests (a ++ b) = list_requests a ++ list_requests b.
Proof. apply flat_map_app. Qed.

Lemma str_or_idem (x y : str) : y <> [] -> str_or (str_or x y) y = str_or x y.
Proof. destruct x; [destruct y; [congruence|reflexivity]|reflexivity]. Qed.

Section Folders.

Variable W : Type.
Variable panel : Panel W.
Variable cfg : Config.

(** [folder_exists], run: one listing, then at most one printed line. *)
Lemma folder_exists_run (server_id path directory : str) (st : state W) :
  folder_exists panel server_id path directory st
  = let (r, w) :=
      get_files_list panel server_id (str_or path [slash]) (world st) in
    let asked := trace st ++ [GetFilesList server_id (str_or path [slash])] in
    match r with
    | Raised e =>
        (Ok false,
         {| world := w;
            trace := asked ++ [Stdout (ErrorCheckingFolder path e)] |})
    | Response status body =>
        if (status =? 200)%Z then
          match body with
          | Json data =>
              (Ok (existsb (fun it => str_eqb (item_name it) directory
                                      && negb (is_file it)) data),
               {| world := w; trace := asked |})
          | BadJson e =>
              (Ok false,
               {| world := w;
                  trace := asked ++ [Stdout (ErrorCheckingFolder path e)] |})
          end
        else
          (Ok false,
           {| world := w;
              trace := asked ++ [Stdout (FailedToList path status)] |})
    end.
Proof.
  unfold folder_exists. run_step.
  destruct (get_files_list panel server_id (str_or path [slash]) (world st))
    as [[e|status body] w]; [reflexivity|].
  destruct (status =? 200)%Z; [|reflexivity].
  destruct body; reflexivity.
Qed.

(** X7. A folder that the listing shows is not created again:
    [create_folder] returns true after the listing alone, without a create
    request, and prints a line only under [DEBUG]. *)
Theorem create_folder_skips_existing (id name root : str) (st : state W) :
  finds_folder (fst (get_files_list panel id (str_or root [slash])
                       (world st))) name ->
  create_folder panel cfg id name root st
  = (Ok true,
     {| world := snd (get_files_list panel id (str_or root [slash])
                        (world st));
        trace := trace st
                 ++ GetFilesList id (str_or root [slash])
                    :: (if DEBUG cfg
                        then [Stdout (FolderAlreadyExists root name)]
                        else []) |}).
Proof.
  intros (data & Hr & it & Hin & Hn & Hf).
  assert (Hfe : folder_exists panel id root name st
                = (Ok true,
                   {| world := snd (get_files_list panel id
                                      (str_or root [slash]) (world st));
                      trace := trace st
                               ++ [GetFilesList id (str_or root [slash])] |})).
  { rewrite folder_exists_run.
    destruct (get_files_list panel id (str_or root [slash]) (world st))
      as [r w]. cbn [fst snd] in *. subst r. cbn.
    replace (existsb _ data) with true; [reflexivity|].
    symmetry. apply existsb_exists. exists it. split; [exact Hin|].
    rewrite Hf. apply andb_true_iff. split; [|reflexivity].
    apply str_eqb_eq. exact Hn. }
  rewrite (@create_folder_after_check W panel cfg id name root st _ _ Hfe).
  cbn [world trace].
  rewrite <- app_assoc. reflexivity.
Qed.

(** X8. [create_folder] raises exactly when the listing does not show the
    folder and the create request itself raises; the exception is the one
    of the request, and [make_folder] passes it on as it is, without the
    message of a failed creation. *)
Theorem create_folder_raises (id name root : str) (st : state W) (e : exn) :
  let listing := get_files_list panel id (str_or root [slash]) (world st) in
  (fst (create_folder panel cfg id name root st) = Raise e <->
   ~ finds_folder (fst listing) name /\
   fst (post_create_folder panel id name (str_or root [slash]) (snd listing))
   = Raised e)
  /\
  (forall server path,
      id = Identifier server -> name = basename path ->
      root = str_or (dirname path) [slash] ->
      fst (create_folder panel cfg id name root st) = Raise e ->
      fst (make_folder panel cfg server path st) = Raise e).
Proof.
  intros listing. subst listing.
  destruct (folder_exists_returns panel id root name st)
    as (found & evs & Hfe & Hfound & _).
  pose proof (@create_folder_after_check W panel cfg id name root st _ _ Hfe)
    as Hcf.
  cbn [world trace] in Hcf. split.
  - rewrite Hcf. destruct found.
    + split; [discriminate|]. intros [Hn _]. exfalso.
      apply Hn, Hfound. reflexivity.
    + destruct (post_create_folder panel id name (str_or root [slash]) _)
        as [[e'|status text] w]; cbn [fst]; split.
      * intros H. injection H as <-. split; [|reflexivity].
        intros Hf. apply Hfound in Hf. discriminate.
      * intros [_ H]. injection H as <-. reflexivity.
      * discriminate.
      * intros [_ H]. discriminate.
  - intros server path -> -> -> Hraise.
    unfold make_folder. unfold bind at 1.
    destruct (create_folder panel cfg (Identifier server) (basename path)
                (str_or (dirname path) [slash]) st) as [[b|e'] st'];
      cbn [fst] in Hraise; [discriminate|].
    injection Hraise as <-. reflexivity.
Qed.

End Folders.

(** ** The two phases of a server's turn *)

Section Phases.

Variable W : Type.
Variable panel : Panel W.
Variable cfg : Config.
Variable set_iter : list str -> list str.

Lemma folder_exists_events (server_id path directory : str) (st : state W) :
  exists found w pr,
    folder_exists panel server_id path directory st
    = (Ok found,
       {| world := w;
          trace := trace st
                   ++ GetFilesList server_id (str_or path [slash]) :: pr |})
    /\ (pr = [] \/ exists l, pr = [Stdout l]).
Proof.
  rewrite folder_exists_run.
  destruct (get_files_list panel server_id (str_or path [slash]) (world st))
    as [[e|status body] w]; cbv beta iota zeta.
  - do 3 eexists. rewrite <- app_assoc. split; [reflexivity|].
    right. eexists. reflexivity.
  - destruct (status =? 200)%Z; [destruct body|];
      do 3 eexists; try rewrite <- app_assoc;
      (split; [reflexivity|]);
      solve [left; reflexivity | right; eexists; reflexivity].
Qed.

(** The events of one [create_folder]: one listing, of the root, and
    nothing of the upload phase. *)
Lemma create_folder_events (id name root : str) (st : state W) :
  exists evs,
    trace (snd (create_folder panel cfg id name root st)) = trace st ++ evs /\
    list_requests evs = [(id, str_or root [slash])] /\
    Forall folder_phase evs.
Proof.
  destruct (folder_exists_events id root name st)
    as (found & w & pr & Hfe & Hpr).
  rewrite (@create_folder_after_check W panel cfg id name root st _ _ Hfe).
  cbn [world trace].
  assert (Hl : list_requests pr = [] /\ Forall folder_phase pr).
  { destruct Hpr as [->|[l ->]]; split; repeat constructor. }
  destruct Hl as [Hl Hp].
  destruct found.
  - eexists. cbn [snd trace]. rewrite <- app_assoc. split; [reflexivity|].
    cbn [app list_requests flat_map]. fold (list_requests (pr ++
      (if DEBUG cfg then [Stdout (FolderAlreadyExists root name)] else []))).
    rewrite list_requests_app, Hl.
    split; [destruct (DEBUG cfg); reflexivity|].
    constructor; [exact I|]. apply Forall_app. split; [exact Hp|].
    destruct (DEBUG cfg); repeat constructor.
  - destruct (post_create_folder panel id name (str_or root [slash]) w)
      as [[e|status text] w1]; eexists; cbn [snd trace];
      rewrite <- app_assoc; (split; [reflexivity|]);
      cbn [app list_requests flat_map];
      match goal with
      | |- context [flat_map _ (pr ++ ?t)] =>
          change (flat_map _ (pr ++ t)) with (list_requests (pr ++ t))
      end;
      rewrite list_requests_app, Hl.
    + split; [reflexivity|]. constructor; [exact I|].
      apply Forall_app. split; [exact Hp|]. repeat constructor.
    + split; [destruct (status =? 204)%Z; [|destruct (status =? 400)%Z];
              reflexivity|].
      constructor; [exact I|]. apply Forall_app. split; [exact Hp|].
      constructor; [exact I|].
      destruct (status =? 204)%Z; [|destruct (status =? 400)%Z];
        repeat constructor.
Qed.

Lemma make_folder_events (server : Server) (path : str) (st : state W) :
  exists evs,
    trace (snd (make_folder panel cfg server path st)) = trace st ++ evs /\
    list_requests evs = [(Identifier server, str_or (dirname path) [slash])] /\
    Forall folder_phase evs.
Proof.
  destruct (create_folder_events (Identifier server) (basename path)
              (str_or (dirname path) [slash]) st) as (evs & Ht & Hl & Hp).
  exists evs. rewrite str_or_idem in Hl by discriminate.
  split; [|split; assumption].
  unfold make_folder. unfold bind at 1.
  destruct (create_folder panel cfg (Identifier server) (basename path)
              (str_or (dirname path) [slash]) st) as [[[|]|e] st1];
    exact Ht.
Qed.

Lemma make_folders_checks_in_order_aux (server : Server)
    (files : list (str * str)) (st : state W) :
  exists evs,
    trace (snd (make_folders panel cfg set_iter server files st))
    = trace st ++ evs /\
    Forall folder_phase evs.
Proof.
  unfold make_folders. generalize (DirectoryPlan set_iter files) as plan.
  intros plan. revert st. induction plan as [|path plan IH]; intros st.
  - exists []. cbn. rewrite app_nil_r. split; [reflexivity|constructor].
  - destruct (make_folder_events server path st) as (evs1 & Ht1 & _ & Hp1).
    cbn [for_each]. unfold bind.
    destruct (make_folder panel cfg server path st) as [[[]|e] st1];
      cbn [snd] in Ht1.
    + destruct (IH st1) as (evs2 & Ht2 & Hp2).
      exists (evs1 ++ evs2).
      split; [rewrite Ht2, Ht1, app_assoc; reflexivity|].
      apply Forall_app. split; assumption.
    + exists evs1. split; [exact Ht1|exact Hp1].
Qed.


(** X10. [upload_file] opens the local file exactly when the
    destination request answers 200 with an address, and posts to that
    address exactly when the file then opens; all it does belongs to the
    upload phase. *)
Theorem upload_file_opens (server_id local_path remote_path : str)
    (st : state W) :
  let destination :=
    get_files_upload panel server_id (remote_directory remote_path)
      (world st) in
  exists evs,
    trace (snd (upload_file panel server_id local_path remote_path st))
    = trace st ++ evs /\
    (In (OpenFile local_path) evs <->
     exists text url, fst destination = Response 200 (text, Json url)) /\
    (forall url,
        In (PostSignedUrl url (remote_directory remote_path) local_path) evs
        <->
        (exists text, fst destination = Response 200 (text, Json url)) /\
        fst (open_rb panel local_path (snd destination)) = None) /\
    Forall upload_phase evs.
Proof.
  intros destination. subst destination. rewrite upload_file_run. cbv zeta.
  destruct (get_files_upload panel server_id (remote_directory remote_path)
              (world st)) as [[e|status [text data]] w]; cbn [fst snd].
  - eexists. split; [reflexivity|]. split; [|split].
    + split; [intros [H|[]]; discriminate H|].
      intros (t & u & H). discriminate H.
    + intros url. split; [intros [H|[]]; discriminate H|].
      intros [(t & H) _]. discriminate H.
    + repeat constructor.
  - destruct (Z.eqb_spec status 200) as [->|Hne]; cbn [negb].
    + destruct data as [url|e].
      * destruct (open_rb panel local_path w) as [[e|] w1]; cbn [fst snd].
        -- eexists. split; [rewrite <- app_assoc; reflexivity|].
           split; [|split].
           ++ split; [intros _; eauto|]. intros _. right. left. reflexivity.
           ++ intros url'. split.
              ** intros [H|[H|[]]]; discriminate H.
              ** intros [_ H]. discriminate H.
           ++ repeat constructor.
        -- destruct (post_signed_url panel url
                       (remote_directory remote_path) local_path w1)
             as [[e|us ut] w2]; cbn [fst snd];
             eexists; (split; [rewrite <- !app_assoc; reflexivity|]);
             (split; [|split]);
             try (solve [split; [intros _; eauto|];
                         intros _; right; left; reflexivity]);
             try (solve [repeat constructor]).
           ++ intros url'. split.
              ** intros [H|[H|[H|[]]]]; try discriminate H.
                 injection H as <-. split; [eauto|reflexivity].
              ** intros [(t & H) _]. injection H as _ <-.
                 right. right. left. reflexivity.
           ++ intros url'. split.
              ** intros [H|[H|[H|[H|[]]]]]; try discriminate H.
                 injection H as <-. split; [eauto|reflexivity].
              ** intros [(t & H) _]. injection H as _ <-.
                 right. right. left. reflexivity.
      * eexists. split; [reflexivity|]. split; [|split].
        -- split; [intros [H|[]]; discriminate H|].
           intros (t & u & H). discriminate H.
        -- intros url. split; [intros [H|[]]; discriminate H|].
           intros [(t & H) _]. discriminate H.
        -- repeat constructor.
    + eexists. split; [rewrite <- app_assoc; reflexivity|].
      split; [|split].
      * split; [intros [H|[H|[]]]; discriminate H|].
        intros (t & u & H). injection H as H _ _. contradiction.
      * intros url. split; [intros [H|[H|[]]]; discriminate H|].
        intros [(t & H) _]. injection H as H _ _. contradiction.
      * repeat constructor.
Qed.

Lemma for_each_cons (A : Type) (x : A) (r : list A) (body : A -> M W unit)
    (st : state W) :
  for_each (x :: r) body st
  = match body x st with
    | (Ok _, st') => for_each r body st'
    | (Raise e, st') => (Raise e, st')
    end.
Proof. reflexivity. Qed.

Lemma upload_step (server : Server) (f : str * str) (st : state W) :
  (upload_file panel (Identifier server) (fst f) (snd f) ;; ret tt) st
  = match upload_file panel (Identifier server) (fst f) (snd f) st with
    | (Ok _, st') => (Ok tt, st')
    | (Raise e, st') => (Raise e, st')
    end.
Proof. reflexivity. Qed.

(** All that one upload does belongs to the upload phase. *)
Lemma upload_file_phase (server_id local_path remote_path : str)
    (st : state W) :
  exists evs,
    trace (snd (upload_file panel server_id local_path remote_path st))
    = trace st ++ evs /\
    Forall upload_phase evs.
Proof.
  rewrite upload_file_run. cbv zeta.
  destruct (get_files_upload panel server_id (remote_directory remote_path)
              (world st)) as [[e|status [text data]] w].
  - eexists. split; [reflexivity|repeat constructor].
  - destruct (negb (status =? 200)%Z).
    + eexists. split; [cbn [snd trace]; rewrite <- app_assoc; reflexivity|].
      repeat constructor.
    + destruct data as [url|e];
        [|eexists; split; [reflexivity|repeat constructor]].
      destruct (open_rb panel local_path w) as [[e|] w1].
      * eexists. split; [cbn [snd trace]; rewrite <- app_assoc; reflexivity|].
        repeat constructor.
      * destruct (post_signed_url panel url (remote_directory remote_path)
                    local_path w1) as [[e|us ut] w2];
          eexists;
          (split; [cbn [snd trace]; rewrite <- !app_assoc; reflexivity|]);
          repeat constructor.
Qed.

Lemma upload_files_events (server : Server) (files : list (str * str))
    (st : state W) :
  exists evs,
    trace (snd (upload_files panel server files st)) = trace st ++ evs /\
    Forall upload_phase evs.
Proof.
  unfold upload_files. revert st.
  induction files as [|[local_path remote_path] r IH]; intros st.
  - exists []. cbn. rewrite app_nil_r. split; [reflexivity|constructor].
  - destruct (upload_file_phase (Identifier server) local_path remote_path st)
      as (evs1 & Ht1 & Hp1).
    rewrite for_each_cons, upload_step. cbn [fst snd].
    destruct (upload_file panel (Identifier server) local_path remote_path st)
      as [[b|e] st1]; cbn [snd] in Ht1.
    + destruct (IH st1) as (evs2 & Ht2 & Hp2).
      exists (evs1 ++ evs2). split; [rewrite Ht2, Ht1, app_assoc; reflexivity|].
      apply Forall_app. split; assumption.
    + exists evs1. split; [exact Ht1|exact Hp1].
Qed.

(** X11. A server's turn is the line that opens it, then the folder
    phase, then the upload phase: no upload request comes before or among
    the listings and creations, none of those comes after the uploads have
    begun, and the upload phase is empty unless the folder loop has
    returned normally. *)
Theorem server_turn_phases (files : list (str * str)) (server : Server)
    (st : state W) :
  let begun := snd (print (EnsuringFolderStructure (Name server)) st) in
  exists folders uploads,
    trace (snd (server_turn panel cfg set_iter files server st))
    = trace st ++ Stdout (EnsuringFolderStructure (Name server))
                  :: folders ++ uploads /\
    upload_events folders = [] /\
    folder_events uploads = [] /\
    (fst (make_folders panel cfg set_iter server files begun) <> Ok tt ->
     uploads = []).
Proof.
  intros begun. unfold server_turn. unfold bind at 1.
  change (print (EnsuringFolderStructure (Name server)) st)
    with (Ok tt, begun).
  destruct (make_folders_checks_in_order_aux server files begun)
    as (folders & Htf & Hpf).
  unfold bind at 1.
  destruct (make_folders panel cfg set_iter server files begun)
    as [[[]|e] st1]; cbn [snd fst] in *.
  - unfold bind at 1. cbn [print emit].
    destruct (upload_files_events server files
                {| world := world st1;
                   trace := trace st1
                            ++ [Stdout (StartingFileUpload (Name server))] |})
      as (ups & Htu & Hpu).
    exists folders, (Stdout (StartingFileUpload (Name server)) :: ups).
    split; [|split; [|split]].
    + rewrite Htu. cbn [trace]. rewrite Htf. subst begun.
      cbn [print emit snd trace]. rewrite <- !app_assoc. reflexivity.
    + apply folder_phase_no_upload. exact Hpf.
    + apply upload_phase_no_folder. constructor; [exact I|exact Hpu].
    + intros H. congruence.
  - exists folders, []. rewrite app_nil_r.
    split; [|split; [|split]].
    + rewrite Htf. subst begun.
      cbn [print emit snd trace]. rewrite <- !app_assoc. reflexivity.
    + apply folder_phase_no_upload. exact Hpf.
    + reflexivity.
    + reflexivity.
Qed.

End Phases.

(** ** Exceptions in the upload phase *)

Section UploadErrors.

Variable W : Type.
Variable panel : Panel W.
Variable cfg : Config.
Variable set_iter : list str -> list str.

(** X12. [upload_file] raises exactly when one of its calls does: the
    destination request, the reading of its answer, the opening of the local
    file or the transfer; the exception is that call's. *)
Theorem upload_file_raises (server_id local_path remote_path : str)
    (st : state W) (e : exn) :
  let directory := remote_directory remote_path in
  let destination := get_files_upload panel server_id directory (world st) in
  let opened := open_rb panel local_path (snd destination) in
  fst (upload_file panel server_id local_path remote_path st) = Raise e <->
  fst destination = Raised e \/
  (exists text, fst destination = Response 200 (text, BadJson e)) \/
  (exists text url,
      fst destination = Response 200 (text, Json url) /\
      (fst opened = Some e \/
       (fst opened = None /\
        fst (post_signed_url panel url directory local_path (snd opened))
        = Raised e))).
Proof.
  intros directory destination opened. subst directory destination opened.
  rewrite upload_file_run. cbv zeta.
  destruct (get_files_upload panel server_id (remote_directory remote_path)
              (world st)) as [[e0|status [text data]] w]; cbn [fst snd].
  - split.
    + intros H. injection H as <-. left. reflexivity.
    + intros [H|[(t & H)|(t & u & H & _)]]; try discriminate H.
      injection H as <-. reflexivity.
  - destruct (Z.eqb_spec status 200) as [->|Hne]; cbn [negb fst].
    + destruct data as [url|e0].
      * destruct (open_rb panel local_path w) as [[e0|] w1]; cbn [fst snd].
        -- split.
           ++ intros H. injection H as <-. right. right.
              exists text, url. split; [reflexivity|left; reflexivity].
           ++ intros [H|[(t & H)|(t & u & H & [Ho|[Ho _]])]];
                try discriminate H; try discriminate Ho.
              injection Ho as <-. reflexivity.
        -- destruct (post_signed_url panel url
                       (remote_directory remote_path) local_path w1)
             as [[e0|us ut] w2] eqn:Ep; cbn [fst snd]; split.
           ++ intros H. injection H as <-. right. right.
              exists text, url. split; [reflexivity|]. right.
              split; [reflexivity|]. rewrite Ep. reflexivity.
           ++ intros [H|[(t & H)|(t & u & H & [Ho|[_ Hp]])]];
                try discriminate H; try discriminate Ho.
              injection H as _ <-. rewrite Ep in Hp. cbn [fst] in Hp.
              injection Hp as <-. reflexivity.
           ++ discriminate.
           ++ intros [H|[(t & H)|(t & u & H & [Ho|[_ Hp]])]];
                try discriminate H; try discriminate Ho.
              injection H as _ <-. rewrite Ep in Hp. discriminate Hp.
      * split.
        -- intros H. injection H as <-. right. left. eauto.
        -- intros [H|[(t & H)|(t & u & H & _)]]; try discriminate H.
           injection H as _ <-. reflexivity.
    + split; [discriminate|].
      intros [H|[(t & H)|(t & u & H & _)]]; try discriminate H;
        injection H as H _; contradiction.
Qed.

(** X13. An upload that raises ends the whole run with its exception:
    the files after it are not tried and the servers after this one are
    not visited. *)
Theorem upload_exception_ends_run (files sent rest : list (str * str))
    (f : str * str) (before after : list Server) (server : Server)
    (e : exn) (st st1 st2 st3 st4 : state W) :
  files = sent ++ f :: rest ->
  run_servers panel cfg set_iter files before st = (Ok tt, st1) ->
  make_folders panel cfg set_iter server files
    (snd (print (EnsuringFolderStructure (Name server)) st1))
  = (Ok tt, st2) ->
  upload_files panel server sent
    (snd (print (StartingFileUpload (Name server)) st2))
  = (Ok tt, st3) ->
  upload_file panel (Identifier server) (fst f) (snd f) st3 = (Raise e, st4) ->
  run_servers panel cfg set_iter files (before ++ server :: after) st
  = (Raise e, st4).
Proof.
  intros Hfiles Hbefore Hfolders Hsent Hraise.
  unfold run_servers in *. rewrite for_each_app, Hbefore.
  cbn [for_each]. unfold bind at 1.
  assert (Hturn : server_turn panel cfg set_iter files server st1
                  = (Raise e, st4)).
  { unfold server_turn. unfold bind at 1. cbn [print emit].
    cbn [print emit snd] in Hfolders. unfold bind at 1. rewrite Hfolders.
    unfold bind at 1. cbn [print emit]. cbn [print emit snd] in Hsent.
    unfold upload_files in *. rewrite Hfiles.
    rewrite for_each_app, Hsent. cbn [for_each]. unfold bind at 1.
    unfold bind at 1. rewrite Hraise. reflexivity. }
  rewrite Hturn. reflexivity.
Qed.

End UploadErrors.

(** ** The parent of a planned directory *)

Lemma rfind_succ_split (c : ascii) (p : str) :
  (rfind_succ c p = 0 /\ ~ In c p) \/
  exists a b, p = a ++ c :: b /\ ~ In c b /\ rfind_succ c p = S (length a).
Proof.
  induction p as [|x r IH]; [left; split; [reflexivity|intros []]|].
  simpl rfind_succ. destruct IH as [[H0 Hn]|(a & b & -> & Hb & Hr)].
  - rewrite H0. destruct (Ascii.eqb_spec x c) as [->|Hne].
    + right. exists [], r. repeat split. exact Hn.
    + left. split; [reflexivity|]. intros [H|H]; [congruence|contradiction].
  - rewrite Hr. right. exists (x :: a), b. repeat split. exact Hb.
Qed.

Lemma firstn_cut (c : ascii) (a b : str) :
  firstn (S (length a)) (a ++ c :: b) = a ++ [c].
Proof. induction a as [|x a IH]; [reflexivity|]. simpl. f_equal. exact IH. Qed.

Lemma all_sep_Forall (c : ascii) (t : str) :
  all_sep c t = true <-> Forall (fun x => x = c) t.
Proof.
  unfold all_sep. rewrite forallb_forall, Forall_forall.
  split; intros H x Hx; [apply Ascii.eqb_eq|apply Ascii.eqb_eq]; auto.
Qed.

Lemma lstrip_prefix (c : ascii) (t : str) :
  exists pre, t = pre ++ lstrip c t /\ Forall (fun x => x = c) pre.
Proof.
  induction t as [|x r IH]; [exists []; split; [reflexivity|constructor]|].
  simpl. destruct (Ascii.eqb_spec x c) as [->|Hne].
  - destruct IH as (pre & He & Hp). exists (c :: pre).
    split; [cbn [app]; f_equal; exact He|constructor; [reflexivity|exact Hp]].
  - exists []. split; [reflexivity|constructor].
Qed.

Lemma rstrip_suffix (c : ascii) (t : str) :
  exists suf, t = rstrip c t ++ suf /\ Forall (fun x => x = c) suf.
Proof.
  destruct (lstrip_prefix c (rev t)) as (pre & He & Hp).
  exists (rev pre). split; [|apply Forall_rev; exact Hp].
  unfold rstrip. rewrite <- rev_app_distr, <- He, rev_involutive. reflexivity.
Qed.

Lemma rstrip_snoc (c : ascii) (a : str) : rstrip c (a ++ [c]) = rstrip c a.
Proof.
  unfold rstrip. rewrite rev_app_distr. cbn [rev app lstrip].
  rewrite Ascii.eqb_refl. reflexivity.
Qed.

(** [dirname] of an absolute path that does not begin with two slashes:
    the root, or a path strictly above it that is not the root. *)
Lemma dirname_above (path y : str) (x0 : ascii) :
  x0 <> slash -> path = slash :: x0 :: y ->
  dirname path = [slash] \/
  (proper_ancestor (dirname path) path /\ ~ is_root (dirname path)).
Proof.
  intros Hx Hpath.
  destruct (rfind_succ_split slash path) as [[_ Hn]|(a & b & Ha & Hb & Hr)].
  - exfalso. apply Hn. rewrite Hpath. left. reflexivity.
  - assert (Hd : dirname path
                 = if all_sep slash (a ++ [slash]) then a ++ [slash]
                   else rstrip slash (a ++ [slash])).
    { unfold dirname. rewrite Hr. rewrite Ha. rewrite !firstn_cut.
      destruct a; reflexivity. }
    rewrite Hd. destruct (all_sep slash (a ++ [slash])) eqn:Hall.
    + left. apply all_sep_Forall in Hall. apply Forall_app in Hall.
      destruct Hall as [Hall _]. rewrite Hpath in Ha.
      destruct a as [|a0 [|a1 a]]; [reflexivity| |].
      * injection Ha as _ Ha. congruence.
      * injection Ha as _ Ha _.
        inversion Hall as [|? ? _ Hall']. inversion Hall' as [|? ? H1 _].
        congruence.
    + right. rewrite rstrip_snoc.
      destruct (rstrip_suffix slash a) as (suf & Hs & Hsuf).
      assert (Hne : rstrip slash a <> []).
      { intros E. rewrite E in Hs. cbn [app] in Hs. subst suf.
        assert (all_sep slash (a ++ [slash]) = true); [|congruence].
        apply all_sep_Forall. apply Forall_app. split; [exact Hsuf|].
        repeat constructor. }
      split.
      * destruct suf as [|c suf].
        -- exists b. rewrite app_nil_r in Hs. rewrite <- Hs. exact Ha.
        -- inversion Hsuf as [|? ? Hc _]. subst c.
           exists (suf ++ slash :: b). rewrite Ha.
           transitivity ((rstrip slash a ++ slash :: suf) ++ slash :: b);
             [rewrite <- Hs; reflexivity|].
           rewrite <- app_assoc. reflexivity.
      * intros [E|E]; [contradiction|].
        destruct (rstrip_last slash a) as [E'|(r' & z & E' & Hz)];
          [contradiction|].
        rewrite E' in E. destruct r' as [|? [|? ?]]; try discriminate E.
        injection E as E. contradiction.
Qed.

(** X14. Under any iteration order of the set, the plan is closed
    upwards and ordered for creation: whatever lies above a path of the
    plan, the root apart, stands in the plan before it; and the root under
    which [main] creates a planned directory is ["/"] or a path that stands
    in the plan before it. *)
Theorem plan_parents_first (set_iter : list str -> list str)
    (files : list (str * str)) (j : nat) (path : str) :
  set_iteration set_iter ->
  nth_error (DirectoryPlan set_iter files) j = Some path ->
  (forall P,
      proper_ancestor P path -> ~ is_root P ->
      exists i, i < j /\ nth_error (DirectoryPlan set_iter files) i = Some P)
  /\
  (str_or (dirname path) [slash] = [slash] \/
   exists i,
     i < j /\
     nth_error (DirectoryPlan set_iter files) i
     = Some (str_or (dirname path) [slash])).
Proof.
  intros Hset Hj. split.
  - intros P HP Hroot. eapply plan_ancestors_precede; eassumption.
  - assert (Hshape : exists x0 y, x0 <> slash /\ path = slash :: x0 :: y).
    { pose proof (nth_error_In _ _ Hj) as Hin.
      apply (plan_In files _ Hset) in Hin.
      destruct Hin as (local & remote & _ & Hroot & Hd).
      unfold remote_directory in Hd.
      destruct (remote_directory_shape remote)
        as [E|(a & r & _ & _ & E & Ha & _)]; rewrite E in Hd.
      - exfalso. apply Hroot. destruct Hd as [->|[rest Hd]].
        + right. reflexivity.
        + destruct path as [|? [|? ?]]; [left; reflexivity| |];
            discriminate Hd.
      - destruct Hd as [->|[rest Hd]]; [exists a, r; tauto|].
        destruct path as [|p0 [|p1 path]].
        + exfalso. apply Hroot. left. reflexivity.
        + exfalso. apply Hroot. right. injection Hd as <-. reflexivity.
        + injection Hd as <- <- _. exists a, path. tauto. }
    destruct Hshape as (x0 & y & Hx & Hpath).
    destruct (dirname_above Hx Hpath) as [->|[Hanc Hroot]];
      [left; reflexivity|].
    right.
    assert (Hs : str_or (dirname path) [slash] = dirname path).
    { destruct (dirname path); [|reflexivity].
      exfalso. apply Hroot. left. reflexivity. }
    rewrite Hs. eapply plan_ancestors_precede; eassumption.
Qed.

Lemma plan_parents_first_witness :
  str_or (dirname (lit "/cfg/sub")) [slash] = [slash] \/
  exists i,
    i < 1 /\
    nth_error (DirectoryPlan insertion_order scenario_files) i
    = Some (str_or (dirname (lit "/cfg/sub")) [slash]).
Proof.
  refine (proj2 (@plan_parents_first insertion_order scenario_files 1
                   (lit "/cfg/sub") insertion_order_ok _)).
  reflexivity.
Defined.

(** ** [ensure_folders] *)

Section EnsureFoldersProperties.

Variable W : Type.
Variable panel : Panel W.
Variable cfg : Config.

(** A [create_folder] that returns false has just printed the failure of
    its create request. *)
Lemma create_folder_false_trace (id name root : str) (st : state W) :
  fst (create_folder panel cfg id name root st) = Ok false ->
  exists evs status text,
    trace (snd (create_folder panel cfg id name root st))
    = trace st ++ evs ++ [Stdout (FailedToCreateFolder name root status text)]
    /\ status <> 204%Z /\ status <> 400%Z.
Proof.
  destruct (folder_exists_events panel id root name st)
    as (found & w & pr & Hfe & _).
  rewrite (@create_folder_after_check W panel cfg id name root st _ _ Hfe).
  cbn [world trace]. destruct found; [discriminate|].
  destruct (post_create_folder panel id name (str_or root [slash]) w)
    as [[e|status text] w1]; [discriminate|]. cbn [fst snd trace].
  destruct (Z.eqb_spec status 204); [discriminate|].
  destruct (Z.eqb_spec status 400); [discriminate|]. intros _.
  exists (GetFilesList id (str_or root [slash]) :: pr
          ++ [PostCreateFolder id name (str_or root [slash])]),
         status, text.
  split; [|tauto]. rewrite <- !app_assoc. cbn [app].
  rewrite <- !app_assoc. reflexivity.
Qed.

(** X15. When [ensure_folders] returns false, the last thing that
    happened is the refusal of a create request for one of the parts of the
    path: it stops at the first folder that cannot be created, asks for
    nothing after it, and gives the failure back as its result instead of
    raising. *)
Theorem ensure_folders_stops_at_failure (id path : str) (st : state W) :
  fst (ensure_folders panel cfg id path st) = Ok false ->
  exists evs name root status text,
    trace (snd (ensure_folders panel cfg id path st))
    = trace st ++ evs ++ [Stdout (FailedToCreateFolder name root status text)]
    /\ In name (split slash (strip slash path))
    /\ name <> []
    /\ status <> 204%Z /\ status <> 400%Z.
Proof.
  intros Hf. unfold ensure_folders in *.
  revert Hf. generalize (split slash (strip slash path)) as parts.
  generalize [slash] as current_root. intros current_root parts. revert current_root st.
  induction parts as [|part rest IH]; intros current_root st Hf;
    [discriminate Hf|].
  cbn [ensure_parts] in *. destruct (str_eqb part []) eqn:Ep.
  - destruct (IH _ _ Hf) as (evs & n & r & s0 & t & Ht & Hin & Hs).
    exists evs, n, r, s0, t. split; [exact Ht|]. split; [right; exact Hin|].
    exact Hs.
  - unfold bind in *.
    pose proof (create_folder_false_trace id part current_root st) as Hc.
    destruct (create_folder_events panel cfg id part current_root st)
      as (evs1 & Ht1 & _).
    destruct (create_folder panel cfg id part current_root st)
      as [[[|]|e] st1]; cbn [fst snd negb] in *.
    + destruct (IH _ _ Hf) as (evs & n & r & s0 & t & Ht & Hin & Hs).
      exists (evs1 ++ evs), n, r, s0, t.
      split; [rewrite Ht, Ht1, <- !app_assoc; reflexivity|].
      split; [right; exact Hin|exact Hs].
    + destruct (Hc eq_refl) as (evs & s0 & t & Ht & Hs).
      exists evs, part, current_root, s0, t.
      split; [exact Ht|]. split; [left; reflexivity|].
      split; [|exact Hs]. intros ->. discriminate Ep.
    + discriminate Hf.
Qed.

(** X16. For a path that is empty or made of slashes only,
    [ensure_folders] returns true without a single request. *)
Theorem ensure_folders_of_root (id path : str) (st : state W) :
  all_sep slash path = true ->
  ensure_folders panel cfg id path st = (Ok true, st).
Proof.
  intros Hall. unfold ensure_folders, strip.
  rewrite (lstrip_all_sep _ _ Hall). reflexivity.
Qed.

End EnsureFoldersProperties.

(** ** A run on which nothing fails *)

Lemma folder_phase_no_request (evs : list event) :
  Forall folder_phase evs -> upload_requests evs = [].
Proof.
  induction 1 as [|ev r Hev Hr IH]; [reflexivity|].
  cbn [upload_requests flat_map]. fold (upload_requests r). rewrite IH.
  destruct ev; solve [reflexivity | destruct Hev].
Qed.

Section HealthyRun.

Variable W : Type.
Variable panel : Panel W.
Variable cfg : Config.
Variable set_iter : list str -> list str.
Hypothesis folders_ok : creates_folders panel.
Hypothesis uploads_answered : answers_with_status panel.

Lemma create_folder_succeeds (id name root : str) (st : state W) :
  fst (create_folder panel cfg id name root st) = Ok true.
Proof.
  destruct (folder_exists_events panel id root name st)
    as (found & w & pr & Hfe & _).
  rewrite (@create_folder_after_check W panel cfg id name root st _ _ Hfe).
  cbn [world trace]. destruct found; [reflexivity|].
  destruct (folders_ok id name (str_or root [slash]) w)
    as (status & text & Hp & Hs).
  destruct (post_create_folder panel id name (str_or root [slash]) w)
    as [r w1]. cbn [fst] in Hp. subst r. cbn [fst].
  destruct Hs as [-> | ->]; reflexivity.
Qed.

Lemma make_folders_succeed (server : Server) (files : list (str * str))
    (st : state W) :
  fst (make_folders panel cfg set_iter server files st) = Ok tt.
Proof.
  unfold make_folders. generalize (DirectoryPlan set_iter files) as plan.
  intros plan. revert st. induction plan as [|path plan IH]; intros st;
    [reflexivity|].
  cbn [for_each]. unfold bind at 1. unfold make_folder at 1. unfold bind at 1.
  pose proof (create_folder_succeeds (Identifier server) (basename path)
                (str_or (dirname path) [slash]) st) as Hc.
  destruct (create_folder panel cfg (Identifier server) (basename path)
              (str_or (dirname path) [slash]) st) as [r st1].
  cbn [fst] in Hc. subst r. cbn [negb ret]. apply IH.
Qed.

Lemma upload_files_requests (server : Server) (files : list (str * str))
    (st : state W) :
  exists evs,
    upload_files panel server files st
    = (Ok tt, snd (upload_files panel server files st)) /\
    trace (snd (upload_files panel server files st)) = trace st ++ evs /\
    upload_requests evs
    = map (fun f => (Identifier server, remote_directory (snd f))) files.
Proof.
  unfold upload_files. revert st.
  induction files as [|[local_path remote_path] r IH]; intros st.
  - exists []. cbn. rewrite app_nil_r. repeat split.
  - destruct (upload_file_returns (Identifier server) local_path remote_path
                st uploads_answered)
      as (done & st1 & evs1 & l & Hu & Ht & Hr & _).
    destruct (IH st1) as (evs2 & Hf & Ht2 & Hr2).
    exists (evs1 ++ evs2).
    rewrite for_each_cons, upload_step. cbn [fst snd]. rewrite Hu.
    split; [exact Hf|].
    split; [rewrite Ht2, Ht, app_assoc; reflexivity|].
    rewrite upload_requests_app, Hr, Hr2. reflexivity.
Qed.

(** X17. On a panel that answers every create request with 204 or 400
    and every request of the upload phase with a status, the loop over the
    servers returns normally and has asked, server after server in the
    order of the list, for the destination of every file in the order of
    the scan. *)
Theorem run_reaches_every_server (files : list (str * str))
    (servers : list Server) (st : state W) :
  exists evs,
    run_servers panel cfg set_iter files servers st
    = (Ok tt, snd (run_servers panel cfg set_iter files servers st)) /\
    trace (snd (run_servers panel cfg set_iter files servers st))
    = trace st ++ evs /\
    upload_requests evs
    = flat_map (fun server =>
                  map (fun f => (Identifier server,
                                 remote_directory (snd f))) files)
               servers.
Proof.
  unfold run_servers. revert st.
  induction servers as [|server r IH]; intros st.
  - exists []. cbn. rewrite app_nil_r. repeat split.
  - rewrite for_each_cons.
    assert (Hturn : exists evs1,
               server_turn panel cfg set_iter files server st
               = (Ok tt, snd (server_turn panel cfg set_iter files server st))
               /\ trace (snd (server_turn panel cfg set_iter files server st))
                  = trace st ++ evs1
               /\ upload_requests evs1
                  = map (fun f => (Identifier server,
                                   remote_directory (snd f))) files).
    { unfold server_turn. unfold bind at 1 4 7. cbn [print emit].
      set (begun := {| world := world st;
                       trace := trace st
                                ++ [Stdout (EnsuringFolderStructure
                                              (Name server))] |}).
      pose proof (make_folders_succeed server files begun) as Hok.
      destruct (make_folders_checks_in_order_aux panel cfg set_iter server
                  files begun) as (evsf & Htf & Hpf).
      unfold bind at 1 3 5.
      destruct (make_folders panel cfg set_iter server files begun)
        as [rf st1]. cbn [fst snd] in Hok, Htf. subst rf.
      unfold bind at 1 2 3. cbn [print emit].
      set (started := {| world := world st1;
                         trace := trace st1
                                  ++ [Stdout (StartingFileUpload
                                                (Name server))] |}).
      destruct (upload_files_requests server files started)
        as (evsu & Hu & Htu & Hru).
      exists (Stdout (EnsuringFolderStructure (Name server))
              :: evsf ++ Stdout (StartingFileUpload (Name server)) :: evsu).
      split; [exact Hu|]. split.
      - rewrite Htu. subst started. cbn [trace]. rewrite Htf. subst begun.
        cbn [trace]. rewrite <- !app_assoc. reflexivity.
      - cbn [upload_requests flat_map app].
        change (flat_map _ (evsf ++ ?t)) with (upload_requests (evsf ++ t)).
        rewrite upload_requests_app, (folder_phase_no_request Hpf).
        exact Hru. }
    destruct Hturn as (evs1 & Hs & Ht1 & Hr1). rewrite Hs.
    destruct (IH (snd (server_turn panel cfg set_iter files server st)))
      as (evs2 & Hf & Ht2 & Hr2).
    exists (evs1 ++ evs2). split; [exact Hf|].
    split; [rewrite Ht2, Ht1, app_assoc; reflexivity|].
    rewrite upload_requests_app, Hr1, Hr2. reflexivity.
Qed.

End HealthyRun.

(** X18. The plan is in the order of depth: of two paths of the plan,
    the one that stands first has no more slashes than the other. *)
Theorem plan_sorted_by_depth (set_iter : list str -> list str)
    (files : list (str * str)) (i j : nat) (P Q : str) :
  i < j ->
  nth_error (DirectoryPlan set_iter files) i = Some P ->
  nth_error (DirectoryPlan set_iter files) j = Some Q ->
  count slash P <= count slash Q.
Proof.
  intros Hij Hi Hj.
  exact (sorted_nth_le (sorted_sorted (count slash) _) Hij Hi Hj).
Qed.

(** ** The further theorems at work *)

Example ensure_folders_run :
  ensure_folders (stateless (healthy [alpha])) module_config
    (lit "a1") (lit "/cfg//sub/") start
  = (Ok true,
     {| world := tt;
        trace :=
          [GetFilesList (lit "a1") (lit "/");
           PostCreateFolder (lit "a1") (lit "cfg") (lit "/");
           Stdout (CreatedFolder (lit "/") (lit "cfg"));
           GetFilesList (lit "a1") (lit "/cfg");
           PostCreateFolder (lit "a1") (lit "sub") (lit "/cfg");
           Stdout (CreatedFolder (lit "/cfg") (lit "sub"))] |}).
Proof. vm_compute. reflexivity. Qed.

Lemma create_folder_skips_existing_witness :
  create_folder (stateless cfg_is_there) module_config
    (lit "a1") (lit "cfg") (lit "/") start
  = (Ok true,
     {| world := tt; trace := [GetFilesList (lit "a1") (lit "/")] |}).
Proof.
  apply (@create_folder_skips_existing unit (stateless cfg_is_there)
           module_config (lit "a1") (lit "cfg") (lit "/") start).
  eexists. split; [reflexivity|].
  eexists. split; [left; reflexivity|]. split; reflexivity.
Defined.

Lemma create_folder_raises_witness :
  fst (create_folder (stateless cfg_is_there) module_config
         (lit "a1") (lit "sub") (lit "/cfg") start) = Raise ClientError.
Proof.
  refine (proj2 (proj1 (@create_folder_raises unit (stateless cfg_is_there)
                          module_config (lit "a1") (lit "sub") (lit "/cfg")
                          start ClientError)) _).
  split; [|reflexivity].
  intros (data & H & it & Hin & _). injection H as <-. destruct Hin.
Defined.


Lemma upload_file_opens_witness :
  exists evs,
    trace (snd (upload_file (stateless flaky) (lit "a1")
                  (lit "upload/cfg/a.txt") (lit "cfg/a.txt") start))
    = trace start ++ evs /\
    In (OpenFile (lit "upload/cfg/a.txt")) evs.
Proof.
  destruct (@upload_file_opens unit (stateless flaky) (lit "a1")
              (lit "upload/cfg/a.txt") (lit "cfg/a.txt") start)
    as (evs & Ht & Ho & _).
  exists evs. split; [exact Ht|]. apply Ho.
  exists [], (lit "https://node/up"). reflexivity.
Defined.

Lemma server_turn_phases_witness :
  exists folders,
    trace (snd (server_turn (stateless alpha_refuses) module_config
                  insertion_order scenario_files cfg_server start))
    = trace start
      ++ Stdout (EnsuringFolderStructure (lit "Alpha")) :: folders ++ [].
Proof.
  destruct (@server_turn_phases unit (stateless alpha_refuses) module_config
              insertion_order scenario_files cfg_server start)
    as (folders & uploads & Ht & _ & _ & Hu).
  exists folders. rewrite <- Hu; [exact Ht|].
  intros H. vm_compute in H. discriminate H.
Defined.

Lemma upload_file_raises_witness :
  fst (upload_file (stateless cfg_is_there) (lit "a1")
         (lit "upload/cfg/a.txt") (lit "cfg/a.txt") start)
  = Raise ContentTypeError.
Proof.
  refine (proj2 (@upload_file_raises unit (stateless cfg_is_there) (lit "a1")
                   (lit "upload/cfg/a.txt") (lit "cfg/a.txt") start
                   ContentTypeError) _).
  right. left. exists []. reflexivity.
Defined.

Lemma upload_exception_ends_run_witness :
  fst (run_servers (stateless upload_breaks) module_config insertion_order
         scenario_files [cfg_server; as_server beta] start)
  = Raise ClientError.
Proof.
  refine (f_equal fst
            (@upload_exception_ends_run unit (stateless upload_breaks)
               module_config insertion_order scenario_files
               [] [(lit "upload/cfg/sub/b.txt", lit "cfg/sub/b.txt")]
               (lit "upload/cfg/a.txt", lit "cfg/a.txt")
               [] [as_server beta] cfg_server ClientError
               start start _ _ _ _ _ _ _ _)).
  - reflexivity.
  - reflexivity.
  - reflexivity.
  - reflexivity.
  - reflexivity.
Defined.

Lemma ensure_folders_stops_at_failure_witness :
  exists evs name root status text,
    trace (snd (ensure_folders (stateless alpha_refuses) module_config
                  (lit "a1") (lit "/cfg/sub") start))
    = trace start ++ evs
      ++ [Stdout (FailedToCreateFolder name root status text)]
    /\ In name (split slash (strip slash (lit "/cfg/sub")))
    /\ name <> []
    /\ status <> 204%Z /\ status <> 400%Z.
Proof.
  apply (@ensure_folders_stops_at_failure unit (stateless alpha_refuses)
           module_config (lit "a1") (lit "/cfg/sub") start).
  reflexivity.
Defined.

Lemma ensure_folders_of_root_witness :
  ensure_folders (stateless (healthy [alpha])) module_config
    (lit "a1") (lit "///") start = (Ok true, start).
Proof.
  apply (@ensure_folders_of_root unit (stateless (healthy [alpha]))
           module_config (lit "a1") (lit "///") start).
  reflexivity.
Defined.

Lemma run_reaches_every_server_witness :
  exists evs,
    run_servers (stateless flaky) module_config insertion_order
      scenario_files [cfg_server; as_server beta] start
    = (Ok tt,
       snd (run_servers (stateless flaky) module_config insertion_order
              scenario_files [cfg_server; as_server beta] start)) /\
    trace (snd (run_servers (stateless flaky) module_config insertion_order
                  scenario_files [cfg_server; as_server beta] start))
    = trace start ++ evs /\
    upload_requests evs
    = [(lit "a1", lit "/cfg"); (lit "a1", lit "/cfg/sub");
       (lit "b2", lit "/cfg"); (lit "b2", lit "/cfg/sub")].
Proof.
  apply (@run_reaches_every_server unit (stateless flaky) module_config
           insertion_order).
  - intros id n r w. exists 400%Z, []. split; [reflexivity|right; reflexivity].
  - repeat split.
    + intros id d w. cbn. destruct (str_eqb d _).
      * do 3 eexists. split; [reflexivity|]. intros H. discriminate H.
      * do 3 eexists. split; [reflexivity|]. intros _. eexists. reflexivity.
    + intros url d p w. do 2 eexists. reflexivity.
Defined.

Lemma plan_sorted_by_depth_witness :
  count slash (lit "/cfg") <= count slash (lit "/cfg/sub").
Proof.
  refine (@plan_sorted_by_depth (fun l => rev (insertion_order l))
            scenario_files 0 1 (lit "/cfg") (lit "/cfg/sub") _ _ _).
  - lia.
  - reflexivity.
  - reflexivity.
Defined.
